(** * HFT-Lite: a shallow embedding of the arbitrage core

    The first part of the file follows the Python sources module by module:

    - [Fmt]           f-strings and caught exceptions;
    - [Decimal]       the fragment of [decimal.Decimal] the engine uses;
    - [FeeModel]      [hft_engine/core/fee_model.py];
    - [Tick]          [hft_engine/core/normalized_tick.py];
    - [Arbitrage]     [hft_engine/core/arbitrage.py];
    - [Account]       [hft_engine/core/account_state.py];
    - [EventBus]      [core/event_bus.py];
    - [Monitor]       the staleness caches and the opportunity gate of
                      [hft_engine/monitor/arbitrage_monitor.py];
    - [Kalshi], [IBKR]  the order objects of the two venue clients;
    - [Executor]      [hft_engine/core/executor.py];
    - [Scenario]      the concrete inputs used in examples.

    The second part states and proves the properties.

    Python [Decimal] values are modelled as exact rationals [Q]: every
    operation of the engine on them (sum, difference, product, comparison,
    [quantize]) is exact in Python as long as the operands stay inside the
    28 significant digits of the default context, which cent-denominated
    cash amounts and prices do.  Quotients are kept exact as well.  Python
    [int] is [Z].  The venues are external: what they answer during one
    execution is an input of the model ([Executor.Venues]), and every
    request sent to them is recorded. *)

From stdpp Require Import gmap strings list.
From Stdlib Require Import ZArith QArith Qround Lqa Lia String List.
Import ListNotations.

Local Open Scope Z_scope.

(* ===================================================================== *)
(** * Formatted messages and exceptions *)
(* ===================================================================== *)

Module Fmt.

(** An f-string is kept as the sequence of its parts: literal text and
    the values spliced in, so that no numeric rendering is needed. *)
Inductive piece :=
| Lit (s : string)
| FInt (z : Z)
| FDec (q : Q).

Definition fstring := list piece.

(** A caught exception, with the text [str(e)] returns. *)
Inductive exn := Exn (msg : string).

Definition str (e : exn) : string := let 'Exn m := e in m.

(** Whether [needle] occurs in some literal part of the message. *)
Definition mentions (needle : string) (f : fstring) : bool :=
  existsb (fun p => match p with
                    | Lit s => match String.index 0 needle s with
                               | Some _ => true
                               | None => false
                               end
                    | _ => false
                    end) f.

End Fmt.

(* ===================================================================== *)
(** * Decimal *)
(* ===================================================================== *)

Module Decimal.

Local Open Scope Q_scope.

(** [a >= b], [a > b] and [a < b] on decimals, as booleans. *)
Definition geb (a b : Q) : bool := Qle_bool b a.
Definition gtb (a b : Q) : bool := negb (Qle_bool a b).
Definition ltb (a b : Q) : bool := negb (Qle_bool b a).
Definition leb (a b : Q) : bool := Qle_bool a b.

(** Truth value of a decimal: [Decimal("0")] is falsy. *)
Definition truthy (a : Q) : bool := negb (Qeq_bool a 0).

(** [x.quantize(Decimal("0.01"), rounding=ROUND_UP)] on an exact amount:
    two decimal places, rounding away from zero whenever a discarded digit
    is non-zero.  The result is a whole number of cents over 100.  Python's
    [quantize] raises [InvalidOperation] once the result needs more than
    28 digits; that is kept in [DecimalContext.quantize] below. *)
Definition quantize_cents_ROUND_UP (x : Q) : Q :=
  if Qle_bool 0 x
  then Qceiling (x * 100) # 100
  else Qfloor (x * 100) # 100.

(** [int(x)]: truncation toward zero. *)
Definition to_int (x : Q) : Z := Z.quot (Qnum x) (Zpos (Qden x)).

(** [a / b] under the default context traps: a zero divisor raises
    [DivisionByZero], or [InvalidOperation] (division undefined) when
    the dividend is zero too. *)
Inductive DecimalError := DivisionByZero | DivisionUndefined.

Definition div (a b : Q) : DecimalError + Q :=
  if Qeq_bool b 0
  then inl (if Qeq_bool a 0 then DivisionUndefined else DivisionByZero)
  else inr (a / b).

Definition exn_of (e : DecimalError) : Fmt.exn :=
  match e with
  | DivisionByZero => Fmt.Exn "[<class 'decimal.DivisionByZero'>]"
  | DivisionUndefined => Fmt.Exn "[<class 'decimal.DivisionUndefined'>]"
  end.

End Decimal.

(* ===================================================================== *)
(** * Fee model *)
(* ===================================================================== *)

Module FeeModel.

Local Open Scope Q_scope.

Record KalshiFeeSchedule := { rate : Q }.

(** [taker_fee] in exact arithmetic.  Python rounds every product to 28
    significant digits; [DecimalContext.taker_fee] below keeps that, and
    the two agree as long as the products fit 28 digits (lemma
    [taker_fee_agrees_with_exact_arithmetic]). *)
Definition taker_fee (self : KalshiFeeSchedule) (price : Q) (quantity : Z) : Q :=
  let p := price in
  let one_minus_p := 1 - price in
  let raw_fee := rate self * inject_Z quantity * p * one_minus_p in
  Decimal.quantize_cents_ROUND_UP raw_fee.

Definition maker_fee (self : KalshiFeeSchedule) (price : Q) (quantity : Z) : Q :=
  taker_fee self price quantity.

Record IBKRFeeSchedule := { forecastex_fee : Q }.

Definition fee (self : IBKRFeeSchedule) (contracts : Z) : Q :=
  forecastex_fee self * inject_Z contracts.

Definition KALSHI_FEES : KalshiFeeSchedule := {| rate := 7 # 100 |}.
Definition IBKR_FEES : IBKRFeeSchedule := {| forecastex_fee := 1 # 100 |}.

(** The amount before rounding. *)
Definition raw_fee (self : KalshiFeeSchedule) (price : Q) (quantity : Z) : Q :=
  rate self * inject_Z quantity * price * (1 - price).

End FeeModel.

(* ===================================================================== *)
(** * Decimal arithmetic under the default context *)
(* ===================================================================== *)

(** The modules above compute with exact rationals.  Python computes every
    [Decimal] operation under a context: 28 significant digits, rounding
    half to even, exponents between [Emin] and [Emax], with
    [InvalidOperation] and [Overflow] raised.  This module keeps that
    arithmetic for the operations the fee formula uses, on finite
    decimals written as a signed coefficient and an exponent (a negative
    zero is not told apart from zero). *)
Module DecimalContext.

Record decimal := { coefficient : Z; exponent : Z }.

Definition prec : Z := 28.
Definition Emax : Z := 999999.
Definition Emin : Z := -999999.
Definition Etiny : Z := Emin - prec + 1.
Definition Etop : Z := Emax - prec + 1.

(** The signals the default context traps (division apart). *)
Inductive signal := InvalidOperation | Overflow.

Inductive rounding := ROUND_HALF_EVEN | ROUND_UP.

(** The value of a decimal, as an exact rational. *)
Definition value (d : decimal) : Q :=
  if 0 <=? exponent d
  then inject_Z (coefficient d * 10 ^ exponent d)
  else Qmake (coefficient d) (Z.to_pos (10 ^ (- exponent d))).

(** [Decimal(n)] for an [int]. *)
Definition of_int (n : Z) : decimal := {| coefficient := n; exponent := 0 |}.

Fixpoint digits_aux (fuel : nat) (n : Z) : Z :=
  match fuel with
  | O => 1
  | S fuel' => if n <? 10 then 1 else 1 + digits_aux fuel' (n / 10)
  end.

(** [len(self._int)]: the number of digits of the coefficient, 1 for 0. *)
Definition digits (c : Z) : Z :=
  digits_aux (S (Z.to_nat (Z.log2 (Z.abs c)))) (Z.abs c).

(** [adjusted()]: the exponent of the leading digit. *)
Definition adjusted (d : decimal) : Z :=
  exponent d + digits (coefficient d) - 1.

(** Whether the kept digits go up by one when the digits below
    [divisor] are dropped, [quo] being what is kept and [rem] what is
    dropped. *)
Definition rounds_away (r : rounding) (quo rem divisor : Z) : bool :=
  match r with
  | ROUND_UP => negb (rem =? 0)
  | ROUND_HALF_EVEN =>
      (divisor <? 2 * rem) || ((2 * rem =? divisor) && Z.odd quo)
  end.

(** Drop the last [k] digits of a coefficient ([k > 0]; more digits than
    the coefficient has leaves 0 or 1 as the rounding decides). *)
Definition drop_digits (r : rounding) (c k : Z) : Z :=
  let m := Z.abs c in
  let divisor := 10 ^ k in
  let quo := m / divisor in
  let rem := m mod divisor in
  Z.sgn c * (quo + (if rounds_away r quo rem divisor then 1 else 0)).

(** [_rescale(exp, rounding)]. *)
Definition _rescale (d : decimal) (exp : Z) (r : rounding) : decimal :=
  if coefficient d =? 0 then {| coefficient := 0; exponent := exp |}
  else if exp <=? exponent d then
    {| coefficient := coefficient d * 10 ^ (exponent d - exp); exponent := exp |}
  else
    {| coefficient := drop_digits r (coefficient d) (exp - exponent d);
       exponent := exp |}.

(** [_fix(context)]: round a result to the context's precision.  A carry
    out of the last kept digit gives a coefficient of [prec + 1] digits
    ending in 0, which loses that digit. *)
Definition _fix (d : decimal) : signal + decimal :=
  if coefficient d =? 0 then
    inr {| coefficient := 0;
           exponent := Z.min (Z.max (exponent d) Etiny) Emax |}
  else
    let exp_min := digits (coefficient d) + exponent d - prec in
    if Etop <? exp_min then inl Overflow
    else
      let exp_min := Z.max exp_min Etiny in
      if exponent d <? exp_min then
        let coeff :=
          drop_digits ROUND_HALF_EVEN (coefficient d) (exp_min - exponent d) in
        let carried := prec <? digits coeff in
        let coeff := if carried then Z.quot coeff 10 else coeff in
        let exp_min := if carried then exp_min + 1 else exp_min in
        if Etop <? exp_min then inl Overflow
        else inr {| coefficient := coeff; exponent := exp_min |}
      else inr d.

(** [a * b]. *)
Definition mul (a b : decimal) : signal + decimal :=
  _fix {| coefficient := coefficient a * coefficient b;
          exponent := exponent a + exponent b |}.

(** [a - b]: the exact difference at the smaller exponent, rounded by
    [_fix].  (CPython shortens the operands when one is zero or far below
    the other; the rounded result is the same number.) *)
Definition sub (a b : decimal) : signal + decimal :=
  let exp := Z.min (exponent a) (exponent b) in
  _fix {| coefficient :=
            coefficient a * 10 ^ (exponent a - exp)
            - coefficient b * 10 ^ (exponent b - exp);
          exponent := exp |}.

(** [d.quantize(Decimal with exponent exp, rounding=r)]. *)
Definition quantize (d : decimal) (exp : Z) (r : rounding) : signal + decimal :=
  if negb ((Etiny <=? exp) && (exp <=? Emax)) then inl InvalidOperation
  else if coefficient d =? 0 then _fix {| coefficient := 0; exponent := exp |}
  else if Emax <? adjusted d then inl InvalidOperation
  else if prec <? adjusted d - exp + 1 then inl InvalidOperation
  else
    let ans := _rescale d exp r in
    if Emax <? adjusted ans then inl InvalidOperation
    else if prec <? digits (coefficient ans) then inl InvalidOperation
    else _fix ans.

(** Sequencing of operations that may raise. *)
Definition bind {A B} (x : signal + A) (f : A -> signal + B) : signal + B :=
  match x with
  | inl e => inl e
  | inr a => f a
  end.

(** [KalshiFeeSchedule.taker_fee] as Python evaluates it: every product
    and the difference are rounded to 28 digits, and [quantize] raises
    when the fee needs more. *)
Definition taker_fee (rate price : decimal) (quantity : Z) : signal + decimal :=
  let p := price in
  bind (sub {| coefficient := 1; exponent := 0 |} price) (fun one_minus_p =>
  bind (mul rate (of_int quantity)) (fun rq =>
  bind (mul rq p) (fun rqp =>
  bind (mul rqp one_minus_p) (fun raw_fee =>
  quantize raw_fee (-2) ROUND_UP)))).

(** The exact amount [rate * quantity * price * (1 - price)]. *)
Definition exact_raw_fee (rate price : decimal) (quantity : Z) : Q :=
  (value rate * inject_Z quantity * value price * (1 - value price))%Q.

(** A price written in cents, and the default rate 0.07. *)
Definition cents (c : Z) : decimal := {| coefficient := c; exponent := -2 |}.
Definition default_rate : decimal := cents 7.

End DecimalContext.

(* ===================================================================== *)
(** * Ticks and the arbitrage detector *)
(* ===================================================================== *)

Module Tick.

Inductive Exchange := KALSHI | IBKR.

Record NormalizedTick := {
  exchange : Exchange;
  symbol : string;
  timestamp_exchange : Z;
  timestamp_local : Z;
  yes_ask : Q;
  no_ask : Q;
  yes_ask_size : Z;
  no_ask_size : Z;
  last : option Q;
  last_size : option Z;
}.

(** [__post_init__]: construction raises [ValueError] unless both asks lie
    in [0, 1]. *)
Definition post_init_ok (t : NormalizedTick) : bool :=
  Decimal.leb 0 (yes_ask t) && Decimal.leb (yes_ask t) 1 &&
  Decimal.leb 0 (no_ask t) && Decimal.leb (no_ask t) 1.

End Tick.

Module Arbitrage.

Import Tick FeeModel.
Local Open Scope Q_scope.

Inductive Side := BUY_YES_KALSHI_NO_IBKR | BUY_NO_KALSHI_YES_IBKR.

Record ArbitrageOpportunity := {
  symbol : string;
  side : Side;
  kalshi_side : string;
  kalshi_price : Q;
  ibkr_side : string;
  ibkr_price : Q;
  total_cost : Q;
  gross_profit : Q;
  kalshi_fee : Q;
  ibkr_fee : Q;
  total_fees : Q;
  slippage_buffer : Q;
  net_profit : Q;
  timestamp_ns : Z;
  quantity : Z;
}.

Record ArbitrageDetector := {
  kalshi_fees : KalshiFeeSchedule;
  ibkr_fees : IBKRFeeSchedule;
  det_slippage_buffer : Q;
  min_profit : Q;
}.

(** [ArbitrageDetector()] with the default arguments. *)
Definition default_detector : ArbitrageDetector :=
  {| kalshi_fees := KALSHI_FEES; ibkr_fees := IBKR_FEES;
     det_slippage_buffer := 1 # 100; min_profit := 0 |}.

(** [_check_opportunity]; [qty] is the keyword argument [quantity]
    (default 1).  The returned record does not receive it: its own
    [quantity] field keeps the dataclass default 1. *)
Definition _check_opportunity (self : ArbitrageDetector)
    (kalshi_price : Q) (kalshi_side : string)
    (ibkr_price : Q) (ibkr_side : string)
    (side : Side) (symbol : string) (timestamp : Z) (qty : Z)
    : option ArbitrageOpportunity :=
  let total_cost := (kalshi_price + ibkr_price) * inject_Z qty in
  if Decimal.geb (kalshi_price + ibkr_price) 1 then None else
  let gross_profit := (1 - kalshi_price - ibkr_price) * inject_Z qty in
  let kalshi_fee := taker_fee (kalshi_fees self) kalshi_price qty in
  let ibkr_fee := fee (ibkr_fees self) qty in
  let total_fees := kalshi_fee + ibkr_fee in
  let net_profit :=
    gross_profit - total_fees - (det_slippage_buffer self * inject_Z qty) in
  if Decimal.ltb net_profit (min_profit self) then None else
  Some {| symbol := symbol; side := side;
          kalshi_side := kalshi_side; kalshi_price := kalshi_price;
          ibkr_side := ibkr_side; ibkr_price := ibkr_price;
          total_cost := total_cost; gross_profit := gross_profit;
          kalshi_fee := kalshi_fee; ibkr_fee := ibkr_fee;
          total_fees := total_fees;
          slippage_buffer := det_slippage_buffer self * inject_Z qty;
          net_profit := net_profit;
          timestamp_ns := timestamp;
          quantity := 1 |}.

(** The first candidate of [detect]: buy YES on Kalshi, NO on IBKR. *)
Definition opp1 (self : ArbitrageDetector) (kalshi_tick ibkr_tick : NormalizedTick)
    : option ArbitrageOpportunity :=
  _check_opportunity self
    (yes_ask kalshi_tick) "YES" (no_ask ibkr_tick) "NO"
    BUY_YES_KALSHI_NO_IBKR (Tick.symbol kalshi_tick)
    (Z.max (timestamp_local kalshi_tick) (timestamp_local ibkr_tick)) 1.

(** The second candidate: buy NO on Kalshi, YES on IBKR. *)
Definition opp2 (self : ArbitrageDetector) (kalshi_tick ibkr_tick : NormalizedTick)
    : option ArbitrageOpportunity :=
  _check_opportunity self
    (no_ask kalshi_tick) "NO" (yes_ask ibkr_tick) "YES"
    BUY_NO_KALSHI_YES_IBKR (Tick.symbol kalshi_tick)
    (Z.max (timestamp_local kalshi_tick) (timestamp_local ibkr_tick)) 1.

(** [detect].  An [ArbitrageOpportunity] object is always truthy, so
    [opp1 and opp2] holds exactly when neither is [None], and
    [opp1 or opp2] is [opp1] unless it is [None]. *)
Definition detect (self : ArbitrageDetector) (kalshi_tick ibkr_tick : NormalizedTick)
    : option ArbitrageOpportunity :=
  if negb (String.eqb (Tick.symbol kalshi_tick) (Tick.symbol ibkr_tick))
  then None
  else
    match opp1 self kalshi_tick ibkr_tick, opp2 self kalshi_tick ibkr_tick with
    | Some o1, Some o2 =>
        Some (if Decimal.gtb (net_profit o1) (net_profit o2) then o1 else o2)
    | Some o1, None => Some o1
    | None, o2 => o2
    end.

End Arbitrage.

(* ===================================================================== *)
(** * Capital ledger *)
(* ===================================================================== *)

Module Account.

Import Fmt.
Local Open Scope Q_scope.

Record Position := {
  pos_symbol : string;
  pos_side : string;
  pos_quantity : Z;
  avg_cost : Q;
}.

Definition pos_total_cost (p : Position) : Q :=
  avg_cost p * inject_Z (pos_quantity p).

Record AccountState := {
  exchange : Tick.Exchange;
  cash_available : Q;
  cash_reserved : Q;
  positions : gmap string Position;
}.

Definition cash_total (self : AccountState) : Q :=
  cash_available self + cash_reserved self.

Definition can_afford (self : AccountState) (amount : Q) : bool :=
  Decimal.geb (cash_available self) amount.

(** [reserve]: the new state and the returned flag. *)
Definition reserve (self : AccountState) (amount : Q) : AccountState * bool :=
  if negb (can_afford self amount) then (self, false)
  else
    ({| exchange := exchange self;
        cash_available := cash_available self - amount;
        cash_reserved := cash_reserved self + amount;
        positions := positions self |}, true).

Definition release (self : AccountState) (amount : Q) : AccountState :=
  {| exchange := exchange self;
     cash_available := cash_available self + amount;
     cash_reserved := cash_reserved self - amount;
     positions := positions self |}.

Definition confirm_spend (self : AccountState) (amount : Q) : AccountState :=
  {| exchange := exchange self;
     cash_available := cash_available self;
     cash_reserved := cash_reserved self - amount;
     positions := positions self |}.

Definition position_key (symbol side : string) : string :=
  (symbol ++ "_" ++ side)%string.

Definition with_positions (self : AccountState) (ps : gmap string Position)
    : AccountState :=
  {| exchange := exchange self;
     cash_available := cash_available self;
     cash_reserved := cash_reserved self;
     positions := ps |}.

(** [add_position].  The average cost is a decimal quotient, so the call
    raises when the divisor is zero; the second component carries the
    exception.  For an existing position the quantity is assigned before
    the quotient is evaluated, and that assignment survives the raise. *)
Definition add_position (self : AccountState) (symbol side : string)
    (quantity : Z) (cost : Q) : AccountState * option exn :=
  let key := position_key symbol side in
  match positions self !! key with
  | Some pos =>
      let total_qty := (pos_quantity pos + quantity)%Z in
      let total_cost := pos_total_cost pos + cost in
      let pos1 := {| pos_symbol := pos_symbol pos; pos_side := pos_side pos;
                     pos_quantity := total_qty; avg_cost := avg_cost pos |} in
      match Decimal.div total_cost (inject_Z total_qty) with
      | inl e => (with_positions self (<[key := pos1]> (positions self)),
                  Some (Decimal.exn_of e))
      | inr avg =>
          (with_positions self
             (<[key := {| pos_symbol := pos_symbol pos; pos_side := pos_side pos;
                          pos_quantity := total_qty; avg_cost := avg |}]>
                (positions self)), None)
      end
  | None =>
      match Decimal.div cost (inject_Z quantity) with
      | inl e => (self, Some (Decimal.exn_of e))
      | inr avg =>
          (with_positions self
             (<[key := {| pos_symbol := symbol; pos_side := side;
                          pos_quantity := quantity; avg_cost := avg |}]>
                (positions self)), None)
      end
  end.

Definition get_position_quantity (self : AccountState) (symbol side : string) : Z :=
  match positions self !! position_key symbol side with
  | Some pos => pos_quantity pos
  | None => 0%Z
  end.

Record CapitalManager := {
  kalshi : AccountState;
  ibkr : AccountState;
  max_capital_per_market : Q;
  max_contracts_per_event : Z;
}.

Definition with_kalshi (self : CapitalManager) (a : AccountState) : CapitalManager :=
  {| kalshi := a; ibkr := ibkr self;
     max_capital_per_market := max_capital_per_market self;
     max_contracts_per_event := max_contracts_per_event self |}.

Definition with_ibkr (self : CapitalManager) (a : AccountState) : CapitalManager :=
  {| kalshi := kalshi self; ibkr := a;
     max_capital_per_market := max_capital_per_market self;
     max_contracts_per_event := max_contracts_per_event self |}.

Definition validate_opportunity (self : CapitalManager) (symbol : string)
    (kalshi_side : string) (kalshi_price : Q)
    (ibkr_side : string) (ibkr_price : Q) (quantity : Z) : bool * fstring :=
  let total_cost := (kalshi_price + ibkr_price) * inject_Z quantity in
  let kalshi_cost := kalshi_price * inject_Z quantity in
  let ibkr_cost := ibkr_price * inject_Z quantity in
  if Decimal.gtb total_cost (max_capital_per_market self) then
    (false, [Lit "Exceeds max capital per market: $"; FDec total_cost;
             Lit " > $"; FDec (max_capital_per_market self)])
  else
  let kalshi_pos := get_position_quantity (kalshi self) symbol kalshi_side in
  let ibkr_pos := get_position_quantity (ibkr self) symbol ibkr_side in
  if (kalshi_pos + quantity >? max_contracts_per_event self)%Z then
    (false, [Lit "Kalshi position limit: "; FInt kalshi_pos; Lit " + ";
             FInt quantity; Lit " > "; FInt (max_contracts_per_event self)])
  else if (ibkr_pos + quantity >? max_contracts_per_event self)%Z then
    (false, [Lit "IBKR position limit: "; FInt ibkr_pos; Lit " + ";
             FInt quantity; Lit " > "; FInt (max_contracts_per_event self)])
  else if negb (can_afford (kalshi self) kalshi_cost) then
    (false, [Lit "Insufficient Kalshi cash: need $"; FDec kalshi_cost;
             Lit ", have $"; FDec (cash_available (kalshi self))])
  else if negb (can_afford (ibkr self) ibkr_cost) then
    (false, [Lit "Insufficient IBKR cash: need $"; FDec ibkr_cost;
             Lit ", have $"; FDec (cash_available (ibkr self))])
  else (true, [Lit "OK"]).

(** [calculate_max_quantity]; [inl] when one of the three decimal
    quotients raises (a zero price or a zero pair cost). *)
Definition calculate_max_quantity (self : CapitalManager) (symbol : string)
    (kalshi_side : string) (kalshi_price : Q)
    (ibkr_side : string) (ibkr_price : Q) : exn + Z :=
  let cost_per_pair := kalshi_price + ibkr_price in
  match Decimal.div (max_capital_per_market self) cost_per_pair with
  | inl e => inl (Decimal.exn_of e)
  | inr c =>
  let max_by_capital := Decimal.to_int c in
  let kalshi_pos := get_position_quantity (kalshi self) symbol kalshi_side in
  let ibkr_pos := get_position_quantity (ibkr self) symbol ibkr_side in
  let max_by_position :=
    Z.min (max_contracts_per_event self - kalshi_pos)
          (max_contracts_per_event self - ibkr_pos) in
  match Decimal.div (cash_available (kalshi self)) kalshi_price with
  | inl e => inl (Decimal.exn_of e)
  | inr k =>
  let max_by_kalshi_cash := Decimal.to_int k in
  match Decimal.div (cash_available (ibkr self)) ibkr_price with
  | inl e => inl (Decimal.exn_of e)
  | inr i =>
  let max_by_ibkr_cash := Decimal.to_int i in
  inr (Z.max 0 (Z.min (Z.min (Z.min max_by_capital max_by_position)
                             max_by_kalshi_cash) max_by_ibkr_cash))
  end end end.

(** A call that moves cash between the two fields without spending it. *)
Inductive transfer :=
| Reserve (amount : Q)
| Release (amount : Q).

Definition apply_transfer (self : AccountState) (t : transfer) : AccountState :=
  match t with
  | Reserve amount => fst (reserve self amount)
  | Release amount => release self amount
  end.

(** A sequence of [reserve] and [release] calls on one account. *)
Definition transfers (self : AccountState) (ts : list transfer) : AccountState :=
  fold_left apply_transfer ts self.

(** Both cash fields are non-negative. *)
Definition cash_nonneg (self : AccountState) : Prop :=
  0 <= cash_available self /\ 0 <= cash_reserved self.

(** Two ledgers hold the same amounts and the same positions. *)
Definition same_account (a b : AccountState) : Prop :=
  cash_available a == cash_available b /\
  cash_reserved a == cash_reserved b /\
  positions a = positions b.

(** Two ledgers hold the same amounts, positions and limits. *)
Definition same_ledger (a b : CapitalManager) : Prop :=
  same_account (kalshi a) (kalshi b) /\
  same_account (ibkr a) (ibkr b) /\
  max_capital_per_market a = max_capital_per_market b /\
  max_contracts_per_event a = max_contracts_per_event b.


End Account.

(* ===================================================================== *)
(** * Bounded event queue *)
(* ===================================================================== *)

Module EventBus.

Inductive BackpressurePolicy := BLOCK | DROP_OLDEST | DROP_NEWEST | RAISE.

Section Queue.

Context {T : Type}.

(** The queue object.  [_queue] is the content of the underlying
    [asyncio.Queue], oldest entry first, each item paired with its
    enqueue time.  [_overflow_callback] tells whether a callback was
    given; [overflow_log] collects the items it was awaited on. *)
Record BoundedEventQueue := {
  _queue : list (T * Z);
  _max_size : Z;
  _policy : BackpressurePolicy;
  _overflow_callback : bool;
  overflow_log : list T;
  _total_enqueued : Z;
  _total_dequeued : Z;
  _total_dropped : Z;
  _wait_times : list Z;
  _max_wait_time_ns : Z;
}.

(** [BoundedEventQueue(max_size, policy, overflow_callback)]. *)
Definition new (max_size : Z) (policy : BackpressurePolicy) (callback : bool)
    : BoundedEventQueue :=
  {| _queue := []; _max_size := max_size; _policy := policy;
     _overflow_callback := callback; overflow_log := [];
     _total_enqueued := 0; _total_dequeued := 0; _total_dropped := 0;
     _wait_times := []; _max_wait_time_ns := 0 |}.

Definition qsize (self : BoundedEventQueue) : Z :=
  Z.of_nat (length (_queue self)).

Definition empty (self : BoundedEventQueue) : bool :=
  match _queue self with [] => true | _ => false end.

(** [asyncio.Queue.full]: a queue whose [maxsize] is zero or negative
    is unbounded and never full. *)
Definition full (self : BoundedEventQueue) : bool :=
  if _max_size self <=? 0 then false else _max_size self <=? qsize self.

Definition set_queue (self : BoundedEventQueue) (l : list (T * Z)) :=
  {| _queue := l; _max_size := _max_size self; _policy := _policy self;
     _overflow_callback := _overflow_callback self;
     overflow_log := overflow_log self;
     _total_enqueued := _total_enqueued self;
     _total_dequeued := _total_dequeued self;
     _total_dropped := _total_dropped self;
     _wait_times := _wait_times self;
     _max_wait_time_ns := _max_wait_time_ns self |}.

Definition incr_enqueued (self : BoundedEventQueue) :=
  {| _queue := _queue self; _max_size := _max_size self;
     _policy := _policy self;
     _overflow_callback := _overflow_callback self;
     overflow_log := overflow_log self;
     _total_enqueued := _total_enqueued self + 1;
     _total_dequeued := _total_dequeued self;
     _total_dropped := _total_dropped self;
     _wait_times := _wait_times self;
     _max_wait_time_ns := _max_wait_time_ns self |}.

Definition incr_dropped (self : BoundedEventQueue) :=
  {| _queue := _queue self; _max_size := _max_size self;
     _policy := _policy self;
     _overflow_callback := _overflow_callback self;
     overflow_log := overflow_log self;
     _total_enqueued := _total_enqueued self;
     _total_dequeued := _total_dequeued self;
     _total_dropped := _total_dropped self + 1;
     _wait_times := _wait_times self;
     _max_wait_time_ns := _max_wait_time_ns self |}.

(** [if self._overflow_callback: await self._overflow_callback(x)]. *)
Definition call_overflow (self : BoundedEventQueue) (x : T) :=
  if _overflow_callback self then
    {| _queue := _queue self; _max_size := _max_size self;
       _policy := _policy self;
       _overflow_callback := _overflow_callback self;
       overflow_log := overflow_log self ++ [x];
       _total_enqueued := _total_enqueued self;
       _total_dequeued := _total_dequeued self;
       _total_dropped := _total_dropped self;
       _wait_times := _wait_times self;
       _max_wait_time_ns := _max_wait_time_ns self |}
  else self.

(** The bookkeeping shared by [get] and [get_nowait] once an entry has
    been taken: count it, record its wait time, keep the last 1000. *)
Definition record_dequeue (self : BoundedEventQueue) (rest : list (T * Z))
    (enqueue_time now : Z) : BoundedEventQueue :=
  let wait_time := now - enqueue_time in
  let wts := _wait_times self ++ [wait_time] in
  {| _queue := rest; _max_size := _max_size self; _policy := _policy self;
     _overflow_callback := _overflow_callback self;
     overflow_log := overflow_log self;
     _total_enqueued := _total_enqueued self;
     _total_dequeued := _total_dequeued self + 1;
     _total_dropped := _total_dropped self;
     _wait_times :=
       if (1000 <? length wts)%nat then skipn (length wts - 1000) wts else wts;
     _max_wait_time_ns :=
       if _max_wait_time_ns self <? wait_time then wait_time
       else _max_wait_time_ns self |}.

(** How a call ends.  [Blocked] is a call that suspends and is never
    resumed: the calls are issued one after the other, so no other
    task runs while one of them is pending. *)
Inductive outcome :=
| PutReturned (queued : bool)
| RaisedQueueFull
| GetReturned (item : T)
| RaisedTimeoutError
| RaisedQueueEmpty
| Blocked.

(** [put(item, timeout)]; [now] is the reading of [time.time_ns()].
    Between the fullness test and [put_nowait] of the final branch
    there is no suspension point, so its [QueueFull] handler is dead
    code and the branch always enqueues. *)
Definition put (self : BoundedEventQueue) (item : T) (timeout : option Q)
    (now : Z) : BoundedEventQueue * outcome :=
  let enqueue_time := now in
  if full self then
    match _policy self with
    | BLOCK =>
        match timeout with
        | Some _ => (incr_dropped self, PutReturned false)
        | None => (self, Blocked)
        end
    | DROP_OLDEST =>
        let self1 :=
          match _queue self with
          | (dropped, _) :: rest =>
              call_overflow (incr_dropped (set_queue self rest)) dropped
          | [] => self
          end in
        if full self1 then (incr_dropped self1, PutReturned false)
        else (incr_enqueued
                (set_queue self1 (_queue self1 ++ [(item, enqueue_time)])),
              PutReturned true)
    | DROP_NEWEST =>
        (call_overflow (incr_dropped self) item, PutReturned false)
    | RAISE => (self, RaisedQueueFull)
    end
  else
    (incr_enqueued (set_queue self (_queue self ++ [(item, enqueue_time)])),
     PutReturned true).

(** [get(timeout)]; [now] is read after the entry has been taken.
    [if timeout:] sends [None] and [0] to the branch that waits
    without a deadline; a deadline that is already over times out
    before the queue is looked at. *)
Definition get (self : BoundedEventQueue) (timeout : option Q) (now : Z)
    : BoundedEventQueue * outcome :=
  let bounded :=
    match timeout with
    | Some t => Decimal.truthy t
    | None => false
    end in
  let expired :=
    match timeout with
    | Some t => bounded && Decimal.leb t 0
    | None => false
    end in
  if expired then (self, RaisedTimeoutError)
  else
    match _queue self with
    | (item, enqueue_time) :: rest =>
        (record_dequeue self rest enqueue_time now, GetReturned item)
    | [] => (self, if bounded then RaisedTimeoutError else Blocked)
    end.

Definition get_nowait (self : BoundedEventQueue) (now : Z)
    : BoundedEventQueue * outcome :=
  match _queue self with
  | (item, enqueue_time) :: rest =>
      (record_dequeue self rest enqueue_time now, GetReturned item)
  | [] => (self, RaisedQueueEmpty)
  end.

(** A call on the queue. *)
Inductive call :=
| Put (item : T) (timeout : option Q) (now : Z)
| Get (timeout : option Q) (now : Z)
| GetNowait (now : Z).

Definition step (self : BoundedEventQueue) (c : call)
    : BoundedEventQueue * outcome :=
  match c with
  | Put item timeout now => put self item timeout now
  | Get timeout now => get self timeout now
  | GetNowait now => get_nowait self now
  end.

(** A sequence of calls issued by one task: each call starts when the
    previous one has returned or raised; nothing follows a call that
    blocks for ever. *)
Fixpoint run (self : BoundedEventQueue) (cs : list call)
    : BoundedEventQueue * list outcome :=
  match cs with
  | [] => (self, [])
  | c :: cs' =>
      let '(self1, o) := step self c in
      match o with
      | Blocked => (self1, [o])
      | _ => let '(self2, os) := run self1 cs' in (self2, o :: os)
      end
  end.

(** Puts that came back [False]: the item never entered the queue. *)
Definition rejected (os : list outcome) : Z :=
  Z.of_nat (length (filter (fun o => match o with
                                     | PutReturned false => true
                                     | _ => false
                                     end) os)).

(** The conservation law, as a predicate on a queue object. *)
Definition conservation (self : BoundedEventQueue) : Prop :=
  _total_enqueued self - _total_dequeued self - _total_dropped self
  = qsize self.

(** The number of rejected puts an outcome stands for. *)
Definition rejection (o : outcome) : Z :=
  match o with PutReturned false => 1 | _ => 0 end.

(** The counters account for the content once [r] rejected puts are
    taken out of [_total_dropped], and a bounded queue is within its
    capacity. *)
Definition accounted (q : BoundedEventQueue) (r : Z) : Prop :=
  _total_enqueued q - _total_dequeued q - _total_dropped q + r = qsize q /\
  (0 < _max_size q -> qsize q <= _max_size q).

Definition items (self : BoundedEventQueue) : list T :=
  map fst (_queue self).

End Queue.

Arguments BoundedEventQueue T : clear implicits.
Arguments outcome T : clear implicits.
Arguments call T : clear implicits.

End EventBus.

(* ===================================================================== *)
(** * Staleness caches and the opportunity gate *)
(* ===================================================================== *)

Module Monitor.

Import Fmt Tick FeeModel Arbitrage.
Local Open Scope Q_scope.

(** [max_age_seconds * 1_000_000_000].  The configured bound is kept as
    an exact rational number of seconds. *)
Definition max_age_ns (max_age_seconds : Q) : Q :=
  max_age_seconds * 1000000000.

Record IBKRPartialTick := {
  partial_yes_ask : option Q;
  partial_yes_ask_size : Z;
  partial_no_ask : option Q;
  partial_no_ask_size : Z;
  partial_timestamp_ns : Z;
}.

(** [IBKRPartialTick.is_stale]; [now] is the reading of [time.time_ns()]. *)
Definition partial_is_stale (self : IBKRPartialTick) (max_age_seconds : Q)
    (now : Z) : bool :=
  if (partial_timestamp_ns self =? 0)%Z then true
  else
    let age_ns := (now - partial_timestamp_ns self)%Z in
    Decimal.gtb (inject_Z age_ns) (max_age_ns max_age_seconds).

Record KalshiTickCache := {
  cache_tick : option NormalizedTick;
  cache_timestamp_ns : Z;
}.

(** [KalshiTickCache.update], stamping the tick with the receipt time. *)
Definition cache_update (self : KalshiTickCache) (tick : NormalizedTick)
    (now : Z) : KalshiTickCache :=
  {| cache_tick := Some tick; cache_timestamp_ns := now |}.

Definition cache_is_stale (self : KalshiTickCache) (max_age_seconds : Q)
    (now : Z) : bool :=
  match cache_tick self with
  | None => true
  | Some _ =>
      if (cache_timestamp_ns self =? 0)%Z then true
      else
        let age_ns := (now - cache_timestamp_ns self)%Z in
        Decimal.gtb (inject_Z age_ns) (max_age_ns max_age_seconds)
  end.

Record ExecutionConfig := {
  mode : string;
  cfg_max_capital_per_market : Q;
  cfg_max_contracts_per_event : Z;
  min_net_profit : Q;
  max_stale_seconds : Q;
}.

(** The coroutine handed to [asyncio.create_task]. *)
Inductive Task :=
| ExecuteOpportunity (opp : ArbitrageOpportunity) (quantity : Z)
| LogOpportunityOnly (opp : ArbitrageOpportunity).

(** The part of the monitor object the gate reads and writes;
    [tasks_created] lists the tasks it has spawned, oldest first. *)
Record ArbitrageMonitor := {
  _execution_config : ExecutionConfig;
  _capital : Account.CapitalManager;
  _detector : ArbitrageDetector;
  _kalshi_cache : gmap string KalshiTickCache;
  _ibkr_partials : gmap string IBKRPartialTick;
  _opportunities_detected : Z;
  _opportunities_valid : Z;
  _opportunities_stale : Z;
  tasks_created : list Task;
}.

Definition set_counters (self : ArbitrageMonitor) (detected valid stale : Z)
    : ArbitrageMonitor :=
  {| _execution_config := _execution_config self;
     _capital := _capital self;
     _detector := _detector self;
     _kalshi_cache := _kalshi_cache self;
     _ibkr_partials := _ibkr_partials self;
     _opportunities_detected := detected;
     _opportunities_valid := valid;
     _opportunities_stale := stale;
     tasks_created := tasks_created self |}.

Definition incr_detected (self : ArbitrageMonitor) :=
  set_counters self (_opportunities_detected self + 1)%Z
    (_opportunities_valid self) (_opportunities_stale self).

Definition incr_valid (self : ArbitrageMonitor) :=
  set_counters self (_opportunities_detected self)
    (_opportunities_valid self + 1)%Z (_opportunities_stale self).

Definition incr_stale (self : ArbitrageMonitor) :=
  set_counters self (_opportunities_detected self)
    (_opportunities_valid self) (_opportunities_stale self + 1)%Z.

Definition create_task (self : ArbitrageMonitor) (t : Task) : ArbitrageMonitor :=
  {| _execution_config := _execution_config self;
     _capital := _capital self;
     _detector := _detector self;
     _kalshi_cache := _kalshi_cache self;
     _ibkr_partials := _ibkr_partials self;
     _opportunities_detected := _opportunities_detected self;
     _opportunities_valid := _opportunities_valid self;
     _opportunities_stale := _opportunities_stale self;
     tasks_created := tasks_created self ++ [t] |}.

Definition _scale_opportunity (self : ArbitrageMonitor)
    (opp : ArbitrageOpportunity) (qty : Z) : ArbitrageOpportunity :=
  let total_cost := (kalshi_price opp + ibkr_price opp) * inject_Z qty in
  let gross_profit := (1 - kalshi_price opp - ibkr_price opp) * inject_Z qty in
  let kalshi_fee := taker_fee KALSHI_FEES (kalshi_price opp) qty in
  let ibkr_fee := fee IBKR_FEES qty in
  let total_fees := kalshi_fee + ibkr_fee in
  let slippage := det_slippage_buffer (_detector self) * inject_Z qty in
  let net_profit := gross_profit - total_fees - slippage in
  {| symbol := symbol opp; side := side opp;
     kalshi_side := kalshi_side opp; kalshi_price := kalshi_price opp;
     ibkr_side := ibkr_side opp; ibkr_price := ibkr_price opp;
     total_cost := total_cost; gross_profit := gross_profit;
     kalshi_fee := kalshi_fee; ibkr_fee := ibkr_fee;
     total_fees := total_fees; slippage_buffer := slippage;
     net_profit := net_profit; timestamp_ns := timestamp_ns opp;
     quantity := 1 |}.

(** What [_handle_opportunity] did before returning: the gate at which
    it stopped, or the task it spawned. *)
Inductive verdict :=
| RejectedStale
| RejectedNoQuantity
| RejectedInvalid
| RejectedUnprofitable
| Accepted
| Raised (e : exn).

(** [_handle_opportunity].  [now_kalshi] and [now_ibkr] are the clock
    readings taken by the two staleness checks, in that order (the
    second is read only when the first check passes). *)
Definition _handle_opportunity (self : ArbitrageMonitor)
    (opp : ArbitrageOpportunity) (now_kalshi now_ibkr : Z)
    : ArbitrageMonitor * verdict :=
  let self := incr_detected self in
  let kalshi_cache := _kalshi_cache self !! symbol opp in
  let ibkr_partial := _ibkr_partials self !! symbol opp in
  let max_stale := max_stale_seconds (_execution_config self) in
  if match kalshi_cache with
     | None => true
     | Some c => cache_is_stale c max_stale now_kalshi
     end
  then (incr_stale self, RejectedStale)
  else
  if match ibkr_partial with
     | None => true
     | Some p => partial_is_stale p max_stale now_ibkr
     end
  then (incr_stale self, RejectedStale)
  else
  match Account.calculate_max_quantity (_capital self) (symbol opp)
          (kalshi_side opp) (kalshi_price opp)
          (ibkr_side opp) (ibkr_price opp) with
  | inl e => (self, Raised e)
  | inr max_qty =>
  if (max_qty <=? 0)%Z then (self, RejectedNoQuantity)
  else
  let '(is_valid, reason) :=
    Account.validate_opportunity (_capital self) (symbol opp)
      (kalshi_side opp) (kalshi_price opp)
      (ibkr_side opp) (ibkr_price opp) max_qty in
  if negb is_valid then (self, RejectedInvalid)
  else
  let scaled_opp := _scale_opportunity self opp max_qty in
  if Decimal.leb (net_profit scaled_opp) 0 then (self, RejectedUnprofitable)
  else
  let self := incr_valid self in
  if String.eqb (mode (_execution_config self)) "live"
  then (create_task self (ExecuteOpportunity scaled_opp max_qty), Accepted)
  else (create_task self (LogOpportunityOnly scaled_opp), Accepted)
  end.

(** The state the gate leaves behind when it rejects for staleness. *)
Definition stale_rejection (self : ArbitrageMonitor) : ArbitrageMonitor :=
  incr_stale (incr_detected self).

(** No usable Kalshi tick for [sym] at clock reading [now]: none was ever
    received, or the last one was received more than [max_stale_seconds]
    ago. *)
Definition kalshi_tick_stale (self : ArbitrageMonitor) (sym : string) (now : Z)
    : Prop :=
  match _kalshi_cache self !! sym with
  | None => True
  | Some c =>
      cache_tick c = None \/ cache_timestamp_ns c = 0%Z \/
      max_age_ns (max_stale_seconds (_execution_config self))
        < inject_Z (now - cache_timestamp_ns c)
  end.

(** The same for the IBKR side, whose timestamp advances on every half. *)
Definition ibkr_tick_stale (self : ArbitrageMonitor) (sym : string) (now : Z)
    : Prop :=
  match _ibkr_partials self !! sym with
  | None => True
  | Some p =>
      partial_timestamp_ns p = 0%Z \/
      max_age_ns (max_stale_seconds (_execution_config self))
        < inject_Z (now - partial_timestamp_ns p)
  end.

End Monitor.

(* ===================================================================== *)
(** * Venue clients: orders as the executor sees them *)
(* ===================================================================== *)

Module Kalshi.

Inductive OrderAction := BUY | SELL.
Inductive OrderSide := YES | NO.
Inductive OrderType := LIMIT | MARKET.
Inductive OrderStatus :=
| RESTING | PENDING | OPEN | FILLED | EXECUTED | CANCELED | CANCELLED | EXPIRED.

Definition side_value (s : OrderSide) : string :=
  match s with YES => "yes" | NO => "no" end.

Definition status_value (s : OrderStatus) : string :=
  match s with
  | RESTING => "resting" | PENDING => "pending" | OPEN => "open"
  | FILLED => "filled" | EXECUTED => "executed" | CANCELED => "canceled"
  | CANCELLED => "cancelled" | EXPIRED => "expired"
  end.

Record KalshiOrder := {
  order_id : string;
  client_order_id : string;
  ticker : string;
  action : OrderAction;
  side : OrderSide;
  type : OrderType;
  status : OrderStatus;
  initial_count : Z;
  remaining_count : Z;
  fill_count : Z;
  price : Q;
}.

Definition is_filled (self : KalshiOrder) : bool :=
  (remaining_count self =? 0) && (0 <? fill_count self).

Definition is_open (self : KalshiOrder) : bool :=
  match status self with
  | RESTING => true
  | _ => 0 <? remaining_count self
  end.

Definition opposite (s : OrderSide) : OrderSide :=
  match s with YES => NO | NO => YES end.

End Kalshi.

Module IBKR.

Inductive IBKROrderStatus := PENDING | SUBMITTED | FILLED | CANCELLED | INACTIVE.

Definition status_value (s : IBKROrderStatus) : string :=
  match s with
  | PENDING => "PendingSubmit" | SUBMITTED => "Submitted" | FILLED => "Filled"
  | CANCELLED => "Cancelled" | INACTIVE => "Inactive"
  end.

Record IBKROrder := {
  order_id : Z;
  con_id : Z;
  action : string;
  quantity : Z;
  limit_price : Q;
  status : IBKROrderStatus;
  filled_quantity : Z;
  avg_fill_price : option Q;
}.

Definition is_filled (self : IBKROrder) : bool :=
  match status self with FILLED => true | _ => false end.

Definition is_open (self : IBKROrder) : bool :=
  match status self with PENDING | SUBMITTED => true | _ => false end.

(** [IBKRClient.wait_for_fill].  [polls] are the views of the trade at
    the loop iterations that start before the deadline, [at_timeout]
    the view taken once the deadline has passed.  The executor passes the
    id [place_order] has just registered, so the unknown-id [ValueError]
    does not arise. *)
Fixpoint wait_for_fill (polls : list IBKROrder) (at_timeout : IBKROrder)
    : IBKROrder :=
  match polls with
  | [] => at_timeout
  | order :: rest =>
      if is_filled order then order
      else if negb (is_open order) then order
      else wait_for_fill rest at_timeout
  end.

End IBKR.

(* ===================================================================== *)
(** * Order executor *)
(* ===================================================================== *)

Module Executor.

Import Fmt.
Local Open Scope Q_scope.

Record ContractMapping := {
  unified_symbol : string;
  description : string;
  kalshi_ticker : string;
  ibkr_yes_conid : Z;
  ibkr_no_conid : Z;
}.

(** A request sent to a venue client. *)
Inductive Call :=
| KalshiPlaceOrder (ticker : string) (side : Kalshi.OrderSide)
    (count : Z) (price_cents : Z)
| KalshiGetOrder (order_id : string)
| KalshiCancelOrder (order_id : string)
| IbkrPlaceOrder (con_id : Z) (quantity : Z) (limit_price : Q)
| IbkrWaitForFill (order_id : Z)
| IbkrCancelOrder (order_id : Z).

(** What the venues answer during one execution.  A client call either
    raises or returns an order.  [kalshi_polls] are the answers to
    [get_order] at the iterations of the fill loop that start before the
    deadline: their number is what the clock decides. *)
Record Venues := {
  kalshi_place : exn + Kalshi.KalshiOrder;
  kalshi_polls : list (exn + Kalshi.KalshiOrder);
  kalshi_cancel : exn + Kalshi.KalshiOrder;
  ibkr_place : exn + IBKR.IBKROrder;
  ibkr_polls : list IBKR.IBKROrder;
  ibkr_at_timeout : IBKR.IBKROrder;
  ibkr_cancel : exn + IBKR.IBKROrder;
  hedge_place : exn + Kalshi.KalshiOrder;
  hedge_get : exn + Kalshi.KalshiOrder;
}.

(** The dictionary a leg returns; an absent key is [None]. *)
Record LegResult (ID : Type) := {
  d_order_id : option ID;
  d_filled : bool;
  d_fill_quantity : option Z;
  d_fill_price : option Q;
  d_error : option string;
}.
Arguments d_order_id {ID}.
Arguments d_filled {ID}.
Arguments d_fill_quantity {ID}.
Arguments d_fill_price {ID}.
Arguments d_error {ID}.

Definition leg_failed {ID} (oid : option ID) (fq : option Z) (msg : string)
    : LegResult ID :=
  {| d_order_id := oid; d_filled := false; d_fill_quantity := fq;
     d_fill_price := None; d_error := Some msg |}.

(** The fill loop of [_execute_kalshi], entered with the order last seen. *)
Fixpoint kalshi_wait (w : Venues) (order : Kalshi.KalshiOrder)
    (polls : list (exn + Kalshi.KalshiOrder))
    : LegResult string * list Call :=
  match polls with
  | [] =>
      let calls := [KalshiCancelOrder (Kalshi.order_id order)] in
      match kalshi_cancel w with
      | inl e => (leg_failed None None (str e), calls)
      | inr _ =>
          (leg_failed (Some (Kalshi.order_id order))
             (Some (Kalshi.fill_count order)) "Timeout waiting for fill",
           calls)
      end
  | answer :: rest =>
      let calls := [KalshiGetOrder (Kalshi.order_id order)] in
      match answer with
      | inl e => (leg_failed None None (str e), calls)
      | inr order =>
          if Kalshi.is_filled order then
            ({| d_order_id := Some (Kalshi.order_id order);
                d_filled := true;
                d_fill_quantity := Some (Kalshi.fill_count order);
                d_fill_price := Some (Kalshi.price order);
                d_error := None |}, calls)
          else if negb (Kalshi.is_open order) then
            (leg_failed (Some (Kalshi.order_id order)) None
               ("Order " ++ Kalshi.status_value (Kalshi.status order))%string,
             calls)
          else
            let '(r, more) := kalshi_wait w order rest in
            (r, calls ++ more)
      end
  end.

Definition kalshi_side_of (side : string) : Kalshi.OrderSide :=
  if String.eqb side "YES" then Kalshi.YES else Kalshi.NO.

Definition _execute_kalshi (w : Venues) (ticker side : string)
    (quantity : Z) (price : Q) : LegResult string * list Call :=
  let kalshi_side := kalshi_side_of side in
  let price_cents := Decimal.to_int (price * 100) in
  let calls := [KalshiPlaceOrder ticker kalshi_side quantity price_cents] in
  match kalshi_place w with
  | inl e => (leg_failed None None (str e), calls)
  | inr order =>
      let '(r, more) := kalshi_wait w order (kalshi_polls w) in
      (r, calls ++ more)
  end.

Definition _execute_ibkr (w : Venues) (con_id quantity : Z) (price : Q)
    : LegResult Z * list Call :=
  let calls := [IbkrPlaceOrder con_id quantity price] in
  match ibkr_place w with
  | inl e => (leg_failed None None (str e), calls)
  | inr order =>
      let calls := calls ++ [IbkrWaitForFill (IBKR.order_id order)] in
      let order := IBKR.wait_for_fill (ibkr_polls w) (ibkr_at_timeout w) in
      if IBKR.is_filled order then
        ({| d_order_id := Some (IBKR.order_id order);
            d_filled := true;
            d_fill_quantity := Some (IBKR.filled_quantity order);
            d_fill_price := IBKR.avg_fill_price order;
            d_error := None |}, calls)
      else
        let not_filled :=
          leg_failed (Some (IBKR.order_id order))
            (Some (IBKR.filled_quantity order))
            ("Order " ++ IBKR.status_value (IBKR.status order))%string in
        if IBKR.is_open order then
          let calls := calls ++ [IbkrCancelOrder (IBKR.order_id order)] in
          match ibkr_cancel w with
          | inl e => (leg_failed None None (str e), calls)
          | inr _ => (not_filled, calls)
          end
        else (not_filled, calls)
  end.

Definition MANUAL : string := "MANUAL INTERVENTION REQUIRED".

(** [_rollback_kalshi]: the flag [success] and the text [details]. *)
Definition _rollback_kalshi (w : Venues) (ticker side : string) (quantity : Z)
    : (bool * fstring) * list Call :=
  let opposite_side :=
    if String.eqb side "YES" then Kalshi.NO else Kalshi.YES in
  let calls := [KalshiPlaceOrder ticker opposite_side quantity 99] in
  match hedge_place w with
  | inl e =>
      ((false, [Lit ("Rollback failed: " ++ str e ++ " - " ++ MANUAL)%string]),
       calls)
  | inr order =>
      let calls := calls ++ [KalshiGetOrder (Kalshi.order_id order)] in
      match hedge_get w with
      | inl e =>
          ((false,
            [Lit ("Rollback failed: " ++ str e ++ " - " ++ MANUAL)%string]),
           calls)
      | inr order =>
          if Kalshi.is_filled order then
            ((true, [Lit "Hedged with "; FInt quantity;
                     Lit (" " ++ Kalshi.side_value opposite_side ++ " @ $")%string;
                     FDec (Kalshi.price order)]), calls)
          else
            ((false,
              [Lit ("Hedge order " ++ Kalshi.status_value (Kalshi.status order)
                    ++ " - " ++ MANUAL)%string]), calls)
      end
  end.

(** [ExecutionResult], without the wall-clock [timestamp] string. *)
Record ExecutionResult := {
  success : bool;
  symbol : string;
  quantity : Z;
  kalshi_filled : bool;
  kalshi_order_id : option string;
  kalshi_side : string;
  kalshi_limit_price : Q;
  kalshi_fill_price : option Q;
  kalshi_fill_quantity : Z;
  ibkr_filled : bool;
  ibkr_order_id : option Z;
  ibkr_side : string;
  ibkr_con_id : Z;
  ibkr_limit_price : Q;
  ibkr_fill_price : option Q;
  ibkr_fill_quantity : Z;
  total_cost : Q;
  expected_payout : Q;
  actual_fees : Q;
  net_profit : Q;
  error : option fstring;
  rolled_back : bool;
  rollback_details : option fstring;
}.

(** [result.error = e]. *)
Definition set_error (r : ExecutionResult) (e : fstring) : ExecutionResult :=
  {| success := success r;
     symbol := symbol r;
     quantity := quantity r;
     kalshi_filled := kalshi_filled r;
     kalshi_order_id := kalshi_order_id r;
     kalshi_side := kalshi_side r;
     kalshi_limit_price := kalshi_limit_price r;
     kalshi_fill_price := kalshi_fill_price r;
     kalshi_fill_quantity := kalshi_fill_quantity r;
     ibkr_filled := ibkr_filled r;
     ibkr_order_id := ibkr_order_id r;
     ibkr_side := ibkr_side r;
     ibkr_con_id := ibkr_con_id r;
     ibkr_limit_price := ibkr_limit_price r;
     ibkr_fill_price := ibkr_fill_price r;
     ibkr_fill_quantity := ibkr_fill_quantity r;
     total_cost := total_cost r;
     expected_payout := expected_payout r;
     actual_fees := actual_fees r;
     net_profit := net_profit r;
     error := Some e;
     rolled_back := rolled_back r;
     rollback_details := rollback_details r |}.

(** [result.ibkr_con_id = c]. *)
Definition set_ibkr_con_id (r : ExecutionResult) (c : Z) : ExecutionResult :=
  {| success := success r;
     symbol := symbol r;
     quantity := quantity r;
     kalshi_filled := kalshi_filled r;
     kalshi_order_id := kalshi_order_id r;
     kalshi_side := kalshi_side r;
     kalshi_limit_price := kalshi_limit_price r;
     kalshi_fill_price := kalshi_fill_price r;
     kalshi_fill_quantity := kalshi_fill_quantity r;
     ibkr_filled := ibkr_filled r;
     ibkr_order_id := ibkr_order_id r;
     ibkr_side := ibkr_side r;
     ibkr_con_id := c;
     ibkr_limit_price := ibkr_limit_price r;
     ibkr_fill_price := ibkr_fill_price r;
     ibkr_fill_quantity := ibkr_fill_quantity r;
     total_cost := total_cost r;
     expected_payout := expected_payout r;
     actual_fees := actual_fees r;
     net_profit := net_profit r;
     error := error r;
     rolled_back := rolled_back r;
     rollback_details := rollback_details r |}.

(** [result.total_cost = c]. *)
Definition set_total_cost (r : ExecutionResult) (c : Q) : ExecutionResult :=
  {| success := success r;
     symbol := symbol r;
     quantity := quantity r;
     kalshi_filled := kalshi_filled r;
     kalshi_order_id := kalshi_order_id r;
     kalshi_side := kalshi_side r;
     kalshi_limit_price := kalshi_limit_price r;
     kalshi_fill_price := kalshi_fill_price r;
     kalshi_fill_quantity := kalshi_fill_quantity r;
     ibkr_filled := ibkr_filled r;
     ibkr_order_id := ibkr_order_id r;
     ibkr_side := ibkr_side r;
     ibkr_con_id := ibkr_con_id r;
     ibkr_limit_price := ibkr_limit_price r;
     ibkr_fill_price := ibkr_fill_price r;
     ibkr_fill_quantity := ibkr_fill_quantity r;
     total_cost := c;
     expected_payout := expected_payout r;
     actual_fees := actual_fees r;
     net_profit := net_profit r;
     error := error r;
     rolled_back := rolled_back r;
     rollback_details := rollback_details r |}.

(** The four assignments from the Kalshi leg's dictionary. *)
Definition set_kalshi_leg (r : ExecutionResult) (d : LegResult string) : ExecutionResult :=
  {| success := success r;
     symbol := symbol r;
     quantity := quantity r;
     kalshi_filled := d_filled d;
     kalshi_order_id := d_order_id d;
     kalshi_side := kalshi_side r;
     kalshi_limit_price := kalshi_limit_price r;
     kalshi_fill_price := d_fill_price d;
     kalshi_fill_quantity := default 0%Z (d_fill_quantity d);
     ibkr_filled := ibkr_filled r;
     ibkr_order_id := ibkr_order_id r;
     ibkr_side := ibkr_side r;
     ibkr_con_id := ibkr_con_id r;
     ibkr_limit_price := ibkr_limit_price r;
     ibkr_fill_price := ibkr_fill_price r;
     ibkr_fill_quantity := ibkr_fill_quantity r;
     total_cost := total_cost r;
     expected_payout := expected_payout r;
     actual_fees := actual_fees r;
     net_profit := net_profit r;
     error := error r;
     rolled_back := rolled_back r;
     rollback_details := rollback_details r |}.

(** The four assignments from the IBKR leg's dictionary. *)
Definition set_ibkr_leg (r : ExecutionResult) (d : LegResult Z) : ExecutionResult :=
  {| success := success r;
     symbol := symbol r;
     quantity := quantity r;
     kalshi_filled := kalshi_filled r;
     kalshi_order_id := kalshi_order_id r;
     kalshi_side := kalshi_side r;
     kalshi_limit_price := kalshi_limit_price r;
     kalshi_fill_price := kalshi_fill_price r;
     kalshi_fill_quantity := kalshi_fill_quantity r;
     ibkr_filled := d_filled d;
     ibkr_order_id := d_order_id d;
     ibkr_side := ibkr_side r;
     ibkr_con_id := ibkr_con_id r;
     ibkr_limit_price := ibkr_limit_price r;
     ibkr_fill_price := d_fill_price d;
     ibkr_fill_quantity := default 0%Z (d_fill_quantity d);
     total_cost := total_cost r;
     expected_payout := expected_payout r;
     actual_fees := actual_fees r;
     net_profit := net_profit r;
     error := error r;
     rolled_back := rolled_back r;
     rollback_details := rollback_details r |}.

(** The three assignments that close the rollback branch. *)
Definition set_rolled_back (r : ExecutionResult) (details : fstring) (e : fstring) : ExecutionResult :=
  {| success := success r;
     symbol := symbol r;
     quantity := quantity r;
     kalshi_filled := kalshi_filled r;
     kalshi_order_id := kalshi_order_id r;
     kalshi_side := kalshi_side r;
     kalshi_limit_price := kalshi_limit_price r;
     kalshi_fill_price := kalshi_fill_price r;
     kalshi_fill_quantity := kalshi_fill_quantity r;
     ibkr_filled := ibkr_filled r;
     ibkr_order_id := ibkr_order_id r;
     ibkr_side := ibkr_side r;
     ibkr_con_id := ibkr_con_id r;
     ibkr_limit_price := ibkr_limit_price r;
     ibkr_fill_price := ibkr_fill_price r;
     ibkr_fill_quantity := ibkr_fill_quantity r;
     total_cost := total_cost r;
     expected_payout := expected_payout r;
     actual_fees := actual_fees r;
     net_profit := net_profit r;
     error := Some e;
     rolled_back := true;
     rollback_details := Some details |}.

(** The assignments that close the success branch. *)
Definition set_success (r : ExecutionResult) (fees cost net : Q) : ExecutionResult :=
  {| success := true;
     symbol := symbol r;
     quantity := quantity r;
     kalshi_filled := kalshi_filled r;
     kalshi_order_id := kalshi_order_id r;
     kalshi_side := kalshi_side r;
     kalshi_limit_price := kalshi_limit_price r;
     kalshi_fill_price := kalshi_fill_price r;
     kalshi_fill_quantity := kalshi_fill_quantity r;
     ibkr_filled := ibkr_filled r;
     ibkr_order_id := ibkr_order_id r;
     ibkr_side := ibkr_side r;
     ibkr_con_id := ibkr_con_id r;
     ibkr_limit_price := ibkr_limit_price r;
     ibkr_fill_price := ibkr_fill_price r;
     ibkr_fill_quantity := ibkr_fill_quantity r;
     total_cost := cost;
     expected_payout := expected_payout r;
     actual_fees := fees;
     net_profit := net;
     error := error r;
     rolled_back := rolled_back r;
     rollback_details := rollback_details r |}.

Record OrderExecutor := {
  _capital : Account.CapitalManager;
  _symbols : gmap string ContractMapping;
}.

(** [x * n if x else fallback] for an optional decimal [x]: [None] and
    zero are both falsy. *)
Definition actual_cost (fill_price : option Q) (fill_quantity : Z)
    (fallback : Q) : Q :=
  match fill_price with
  | Some p => if Decimal.truthy p then p * inject_Z fill_quantity else fallback
  | None => fallback
  end.

(** [x or y] for an optional decimal [x]. *)
Definition or_else (x : option Q) (y : Q) : Q :=
  match x with
  | Some p => if Decimal.truthy p then p else y
  | None => y
  end.

(** The handler [except Exception as e] of [execute]. *)
Definition emergency_cleanup (capital : Account.CapitalManager)
    (kalshi_cost ibkr_cost : Q) (result : ExecutionResult) (e : exn)
    : ExecutionResult * Account.CapitalManager :=
  let capital :=
    Account.with_kalshi capital
      (Account.release (Account.kalshi capital) kalshi_cost) in
  let capital :=
    Account.with_ibkr capital
      (Account.release (Account.ibkr capital) ibkr_cost) in
  (set_error result [Lit ("Execution error: " ++ str e)%string], capital).

(** [ExecutionResult(success=False, symbol=..., ...)], the object [execute]
    starts from. *)
Definition new_result (opportunity : Arbitrage.ArbitrageOpportunity)
    (quantity : Z) : ExecutionResult :=
  {| success := false;
     symbol := Arbitrage.symbol opportunity;
     quantity := quantity;
     kalshi_filled := false; kalshi_order_id := None;
     kalshi_side := Arbitrage.kalshi_side opportunity;
     kalshi_limit_price := Arbitrage.kalshi_price opportunity;
     kalshi_fill_price := None; kalshi_fill_quantity := 0;
     ibkr_filled := false; ibkr_order_id := None;
     ibkr_side := Arbitrage.ibkr_side opportunity;
     ibkr_con_id := 0;
     ibkr_limit_price := Arbitrage.ibkr_price opportunity;
     ibkr_fill_price := None; ibkr_fill_quantity := 0;
     total_cost := 0; expected_payout := inject_Z quantity;
     actual_fees := 0; net_profit := 0;
     error := None; rolled_back := false; rollback_details := None |}.

(** [execute], "4. Success - update state": both legs are filled.  The
    two [add_position] calls are the only statements of the [try] block
    that can raise in this model; the handler then releases both costs
    although they have just been confirmed. *)
Definition commit (capital : Account.CapitalManager) (result : ExecutionResult)
    (opportunity : Arbitrage.ArbitrageOpportunity) (kalshi_cost ibkr_cost : Q)
    : ExecutionResult * Account.CapitalManager :=
  let capital :=
    Account.with_kalshi capital
      (Account.confirm_spend (Account.kalshi capital) kalshi_cost) in
  let capital :=
    Account.with_ibkr capital
      (Account.confirm_spend (Account.ibkr capital) ibkr_cost) in
  let actual_kalshi_cost :=
    actual_cost (kalshi_fill_price result) (kalshi_fill_quantity result)
      kalshi_cost in
  let actual_ibkr_cost :=
    actual_cost (ibkr_fill_price result) (ibkr_fill_quantity result)
      ibkr_cost in
  match Account.add_position (Account.kalshi capital)
          (Arbitrage.symbol opportunity) (Arbitrage.kalshi_side opportunity)
          (kalshi_fill_quantity result) actual_kalshi_cost with
  | (k, Some e) =>
      emergency_cleanup (Account.with_kalshi capital k)
        kalshi_cost ibkr_cost result e
  | (k, None) =>
  let capital := Account.with_kalshi capital k in
  match Account.add_position (Account.ibkr capital)
          (Arbitrage.symbol opportunity) (Arbitrage.ibkr_side opportunity)
          (ibkr_fill_quantity result) actual_ibkr_cost with
  | (i, Some e) =>
      emergency_cleanup (Account.with_ibkr capital i)
        kalshi_cost ibkr_cost result e
  | (i, None) =>
  let capital := Account.with_ibkr capital i in
  let kalshi_fee :=
    FeeModel.taker_fee FeeModel.KALSHI_FEES
      (or_else (kalshi_fill_price result) (Arbitrage.kalshi_price opportunity))
      (kalshi_fill_quantity result) in
  let ibkr_fee := FeeModel.fee FeeModel.IBKR_FEES (ibkr_fill_quantity result) in
  let fees := kalshi_fee + ibkr_fee in
  let cost := actual_kalshi_cost + actual_ibkr_cost in
  (set_success result fees cost (expected_payout result - cost - fees), capital)
  end end.

(** [execute], "3. Place IBKR order", entered once the Kalshi leg is
    filled: the IBKR order, then either the rollback or the commit. *)
Definition leg_b (w : Venues) (mapping : ContractMapping)
    (capital : Account.CapitalManager) (result : ExecutionResult)
    (opportunity : Arbitrage.ArbitrageOpportunity) (quantity : Z)
    (kalshi_cost ibkr_cost : Q)
    : ExecutionResult * Account.CapitalManager * list Call :=
  let '(ibkr_result, calls_b) :=
    _execute_ibkr w (ibkr_con_id result) quantity
      (Arbitrage.ibkr_price opportunity) in
  let result := set_ibkr_leg result ibkr_result in
  if negb (ibkr_filled result) then
    (* IBKR failed - rollback Kalshi *)
    let capital :=
      Account.with_ibkr capital
        (Account.release (Account.ibkr capital) ibkr_cost) in
    let '((_, details), calls_h) :=
      _rollback_kalshi w (kalshi_ticker mapping)
        (Arbitrage.kalshi_side opportunity) (kalshi_fill_quantity result) in
    (set_rolled_back result details
       [Lit (default "IBKR order not filled"%string (d_error ibkr_result))],
     capital, calls_b ++ calls_h)
  else
    let '(result, capital) :=
      commit capital result opportunity kalshi_cost ibkr_cost in
    (result, capital, calls_b).

(** [execute], "2. Place Kalshi order", entered with both costs reserved. *)
Definition leg_a (w : Venues) (mapping : ContractMapping)
    (capital : Account.CapitalManager) (result : ExecutionResult)
    (opportunity : Arbitrage.ArbitrageOpportunity) (quantity : Z)
    (kalshi_cost ibkr_cost : Q)
    : ExecutionResult * Account.CapitalManager * list Call :=
  let '(kalshi_result, calls_a) :=
    _execute_kalshi w (kalshi_ticker mapping)
      (Arbitrage.kalshi_side opportunity) quantity
      (Arbitrage.kalshi_price opportunity) in
  let result := set_kalshi_leg result kalshi_result in
  if negb (kalshi_filled result) then
    (* Kalshi failed - release all capital *)
    let capital :=
      Account.with_kalshi capital
        (Account.release (Account.kalshi capital) kalshi_cost) in
    let capital :=
      Account.with_ibkr capital
        (Account.release (Account.ibkr capital) ibkr_cost) in
    (set_error result
       [Lit (default "Kalshi order not filled"%string (d_error kalshi_result))],
     capital, calls_a)
  else
    let '(result, capital, calls) :=
      leg_b w mapping capital result opportunity quantity kalshi_cost ibkr_cost in
    (result, capital, calls_a ++ calls).

(** [execute]: the result, the ledger afterwards, and the requests sent
    to the venues in order.  The body of the [try] statement is [leg_a]
    (which continues into [leg_b] and [commit]). *)
Definition execute (self : OrderExecutor) (w : Venues)
    (opportunity : Arbitrage.ArbitrageOpportunity) (quantity : Z)
    : ExecutionResult * Account.CapitalManager * list Call :=
  let capital := _capital self in
  let result := new_result opportunity quantity in
  match _symbols self !! Arbitrage.symbol opportunity with
  | None =>
      (set_error result
         [Lit ("Unknown symbol: " ++ Arbitrage.symbol opportunity)%string],
       capital, [])
  | Some mapping =>
  let result :=
    set_ibkr_con_id result
      (if String.eqb (Arbitrage.ibkr_side opportunity) "YES"
       then ibkr_yes_conid mapping else ibkr_no_conid mapping) in
  let kalshi_cost := Arbitrage.kalshi_price opportunity * inject_Z quantity in
  let ibkr_cost := Arbitrage.ibkr_price opportunity * inject_Z quantity in
  let result := set_total_cost result (kalshi_cost + ibkr_cost) in
  (* 1. Reserve capital *)
  let '(k, ok) := Account.reserve (Account.kalshi capital) kalshi_cost in
  let capital := Account.with_kalshi capital k in
  if negb ok then
    (set_error result
       [Lit "Insufficient Kalshi capital: need $"; FDec kalshi_cost],
     capital, [])
  else
  let '(i, ok) := Account.reserve (Account.ibkr capital) ibkr_cost in
  let capital := Account.with_ibkr capital i in
  if negb ok then
    (set_error result
       [Lit "Insufficient IBKR capital: need $"; FDec ibkr_cost],
     Account.with_kalshi capital
       (Account.release (Account.kalshi capital) kalshi_cost), [])
  else
    leg_a w mapping capital result opportunity quantity kalshi_cost ibkr_cost
  end.

(** The orders placed on each venue, in the order they were sent. *)
Definition kalshi_orders (calls : list Call) : list Call :=
  List.filter (fun c => match c with KalshiPlaceOrder _ _ _ _ => true | _ => false end)
    calls.

Definition ibkr_orders (calls : list Call) : list Call :=
  List.filter (fun c => match c with IbkrPlaceOrder _ _ _ => true | _ => false end)
    calls.

(** The three components of what [execute] yields. *)
Definition result_of (x : ExecutionResult * Account.CapitalManager * list Call)
    : ExecutionResult := fst (fst x).
Definition ledger_of (x : ExecutionResult * Account.CapitalManager * list Call)
    : Account.CapitalManager := snd (fst x).
Definition calls_of (x : ExecutionResult * Account.CapitalManager * list Call)
    : list Call := snd x.

(** The conId [execute] trades on IBKR for an opportunity. *)
Definition con_id_for (mapping : ContractMapping)
    (opportunity : Arbitrage.ArbitrageOpportunity) : Z :=
  if String.eqb (Arbitrage.ibkr_side opportunity) "YES"
  then ibkr_yes_conid mapping else ibkr_no_conid mapping.

(** The hedge order [_rollback_kalshi] sends for a filled leg A. *)
Definition hedge_order (mapping : ContractMapping)
    (opp : Arbitrage.ArbitrageOpportunity) (filled : Z) : Call :=
  KalshiPlaceOrder (kalshi_ticker mapping)
    (Kalshi.opposite (kalshi_side_of (Arbitrage.kalshi_side opp))) filled 99.

(** The order [_execute_kalshi] sends for leg A. *)
Definition leg_a_order (mapping : ContractMapping)
    (opp : Arbitrage.ArbitrageOpportunity) (quantity : Z) : Call :=
  KalshiPlaceOrder (kalshi_ticker mapping)
    (kalshi_side_of (Arbitrage.kalshi_side opp)) quantity
    (Decimal.to_int (Arbitrage.kalshi_price opp * 100)).

(** The result object as it stands when capital is reserved. *)
Definition prepared (mapping : ContractMapping)
    (opp : Arbitrage.ArbitrageOpportunity) (quantity : Z) : ExecutionResult :=
  set_total_cost
    (set_ibkr_con_id (new_result opp quantity) (con_id_for mapping opp))
    (Arbitrage.kalshi_price opp * inject_Z quantity
     + Arbitrage.ibkr_price opp * inject_Z quantity).

(** Whether [_rollback_kalshi] takes its [order.is_filled] branch: the
    hedge was placed, and the order read back has nothing remaining and a
    positive fill count.  An order the venue closed after a partial fill
    passes this test too. *)
Definition hedge_filled (w : Venues) : bool :=
  match hedge_place w, hedge_get w with
  | inr _, inr order => Kalshi.is_filled order
  | _, _ => false
  end.

End Executor.

(* ===================================================================== *)
(** * Concrete scenarios *)
(* ===================================================================== *)

Module Scenario.

Import Tick.

Definition tick (ex : Exchange) (sym : string) (yes no : Q) : NormalizedTick :=
  {| exchange := ex; symbol := sym;
     timestamp_exchange := 1000; timestamp_local := 1000;
     yes_ask := yes; no_ask := no;
     yes_ask_size := 10; no_ask_size := 10;
     last := None; last_size := None |}.

(** S1: Kalshi 0.40 / 0.60 against IBKR 0.55 / 0.43. *)
Definition s1_kalshi := tick KALSHI "EVT" (40 # 100) (60 # 100).
Definition s1_ibkr := tick IBKR "EVT" (55 # 100) (43 # 100).

(** S2: both venues at 0.52 / 0.49. *)
Definition s2_kalshi := tick KALSHI "EVT" (52 # 100) (49 # 100).
Definition s2_ibkr := tick IBKR "EVT" (52 # 100) (49 # 100).

(** Both venues at 0.40 / 0.40: the two pairings net the same profit. *)
Definition tie_kalshi := tick KALSHI "EVT" (40 # 100) (40 # 100).
Definition tie_ibkr := tick IBKR "EVT" (40 # 100) (40 # 100).

(** An account with 10.00 available and 2.00 reserved. *)
Definition funded : Account.AccountState :=
  {| Account.exchange := KALSHI; Account.cash_available := 10;
     Account.cash_reserved := 2; Account.positions := ∅ |}.

(** An account with nothing in it. *)
Definition empty_account : Account.AccountState :=
  {| Account.exchange := KALSHI; Account.cash_available := 0;
     Account.cash_reserved := 0; Account.positions := ∅ |}.

(** S6: five puts on a queue of capacity 3, nothing consumed. *)
Definition s6_burst : list (EventBus.call Z) :=
  [EventBus.Put 1%Z None 10; EventBus.Put 2%Z None 20; EventBus.Put 3%Z None 30;
   EventBus.Put 4%Z None 40; EventBus.Put 5%Z None 50].

(** Two puts on a queue of capacity 1. *)
Definition two_puts : list (EventBus.call Z) :=
  [EventBus.Put 1%Z None 10; EventBus.Put 2%Z None 20].

(** S3: the monitor holds S1's ticks; the Kalshi tick was received at
    second 100, the IBKR halves at second 109; the bound is 5 seconds. *)
Definition s3_config : Monitor.ExecutionConfig :=
  {| Monitor.mode := "live";
     Monitor.cfg_max_capital_per_market := 50;
     Monitor.cfg_max_contracts_per_event := 100;
     Monitor.min_net_profit := 0;
     Monitor.max_stale_seconds := 5 |}.

Definition s3_capital : Account.CapitalManager :=
  {| Account.kalshi := funded; Account.ibkr := funded;
     Account.max_capital_per_market := 50;
     Account.max_contracts_per_event := 100 |}.

Definition s3_monitor : Monitor.ArbitrageMonitor :=
  {| Monitor._execution_config := s3_config;
     Monitor._capital := s3_capital;
     Monitor._detector := Arbitrage.default_detector;
     Monitor._kalshi_cache :=
       {[ "EVT"%string :=
            {| Monitor.cache_tick := Some s1_kalshi;
               Monitor.cache_timestamp_ns := 100000000000 |} ]};
     Monitor._ibkr_partials :=
       {[ "EVT"%string :=
            {| Monitor.partial_yes_ask := Some (55 # 100);
               Monitor.partial_yes_ask_size := 10;
               Monitor.partial_no_ask := Some (43 # 100);
               Monitor.partial_no_ask_size := 10;
               Monitor.partial_timestamp_ns := 109000000000 |} ]};
     Monitor._opportunities_detected := 0;
     Monitor._opportunities_valid := 0;
     Monitor._opportunities_stale := 0;
     Monitor.tasks_created := [] |}.

(** The opportunity the detector reports on S1's ticks. *)
Definition s1_opportunity : Arbitrage.ArbitrageOpportunity :=
  {| Arbitrage.symbol := "EVT";
     Arbitrage.side := Arbitrage.BUY_YES_KALSHI_NO_IBKR;
     Arbitrage.kalshi_side := "YES"; Arbitrage.kalshi_price := 40 # 100;
     Arbitrage.ibkr_side := "NO"; Arbitrage.ibkr_price := 43 # 100;
     Arbitrage.total_cost := 83 # 100; Arbitrage.gross_profit := 17 # 100;
     Arbitrage.kalshi_fee := 2 # 100; Arbitrage.ibkr_fee := 1 # 100;
     Arbitrage.total_fees := 3 # 100; Arbitrage.slippage_buffer := 1 # 100;
     Arbitrage.net_profit := 13 # 100;
     Arbitrage.timestamp_ns := 1000; Arbitrage.quantity := 1 |}.

(** An account holding 100.00, nothing reserved. *)
Definition hundred (ex : Exchange) : Account.AccountState :=
  {| Account.exchange := ex; Account.cash_available := 100;
     Account.cash_reserved := 0; Account.positions := ∅ |}.

Definition s5_executor : Executor.OrderExecutor :=
  {| Executor._capital :=
       {| Account.kalshi := hundred KALSHI; Account.ibkr := hundred IBKR;
          Account.max_capital_per_market := 50;
          Account.max_contracts_per_event := 100 |};
     Executor._symbols :=
       {[ "EVT"%string :=
            {| Executor.unified_symbol := "EVT";
               Executor.description := "An event";
               Executor.kalshi_ticker := "KX-EVT";
               Executor.ibkr_yes_conid := 1001;
               Executor.ibkr_no_conid := 1002 |} ]} |}.

Definition kalshi_order (sd : Kalshi.OrderSide) (st : Kalshi.OrderStatus)
    (initial remaining filled : Z) (p : Q) : Kalshi.KalshiOrder :=
  {| Kalshi.order_id := "k-1"; Kalshi.client_order_id := "c-1";
     Kalshi.ticker := "KX-EVT"; Kalshi.action := Kalshi.BUY;
     Kalshi.side := sd; Kalshi.type := Kalshi.LIMIT; Kalshi.status := st;
     Kalshi.initial_count := initial; Kalshi.remaining_count := remaining;
     Kalshi.fill_count := filled; Kalshi.price := p |}.

Definition ibkr_order (st : IBKR.IBKROrderStatus) (qty filled : Z)
    (avg : option Q) : IBKR.IBKROrder :=
  {| IBKR.order_id := 7; IBKR.con_id := 1002; IBKR.action := "BUY";
     IBKR.quantity := qty; IBKR.limit_price := 43 # 100;
     IBKR.status := st; IBKR.filled_quantity := filled;
     IBKR.avg_fill_price := avg |}.

(** S5: leg A fills 5 YES at 0.40, leg B is rejected, the hedge fills. *)
Definition s5_venues : Executor.Venues :=
  {| Executor.kalshi_place :=
       inr (kalshi_order Kalshi.YES Kalshi.RESTING 5 5 0 (40 # 100));
     Executor.kalshi_polls :=
       [inr (kalshi_order Kalshi.YES Kalshi.EXECUTED 5 0 5 (40 # 100))];
     Executor.kalshi_cancel :=
       inr (kalshi_order Kalshi.YES Kalshi.CANCELED 5 0 0 (40 # 100));
     Executor.ibkr_place := inr (ibkr_order IBKR.INACTIVE 5 0 None);
     Executor.ibkr_polls := [ibkr_order IBKR.INACTIVE 5 0 None];
     Executor.ibkr_at_timeout := ibkr_order IBKR.INACTIVE 5 0 None;
     Executor.ibkr_cancel := inr (ibkr_order IBKR.CANCELLED 5 0 None);
     Executor.hedge_place :=
       inr (kalshi_order Kalshi.NO Kalshi.RESTING 5 5 0 (99 # 100));
     Executor.hedge_get :=
       inr (kalshi_order Kalshi.NO Kalshi.EXECUTED 5 0 5 (99 # 100)) |}.

(** S5 again, but the hedge is still resting when it is looked at. *)
Definition s5_venues_unhedged : Executor.Venues :=
  {| Executor.kalshi_place := Executor.kalshi_place s5_venues;
     Executor.kalshi_polls := Executor.kalshi_polls s5_venues;
     Executor.kalshi_cancel := Executor.kalshi_cancel s5_venues;
     Executor.ibkr_place := Executor.ibkr_place s5_venues;
     Executor.ibkr_polls := Executor.ibkr_polls s5_venues;
     Executor.ibkr_at_timeout := Executor.ibkr_at_timeout s5_venues;
     Executor.ibkr_cancel := Executor.ibkr_cancel s5_venues;
     Executor.hedge_place := Executor.hedge_place s5_venues;
     Executor.hedge_get :=
       inr (kalshi_order Kalshi.NO Kalshi.RESTING 5 5 0 (99 # 100)) |}.


(** Leg A is asked for 5 contracts; the order is closed by the venue after
    3 of them traded (nothing remains, 3 filled); leg B then fills 5. *)
Definition partial_fill_venues : Executor.Venues :=
  {| Executor.kalshi_place :=
       inr (kalshi_order Kalshi.YES Kalshi.RESTING 5 5 0 (40 # 100));
     Executor.kalshi_polls :=
       [inr (kalshi_order Kalshi.YES Kalshi.CANCELED 5 0 3 (40 # 100))];
     Executor.kalshi_cancel :=
       inr (kalshi_order Kalshi.YES Kalshi.CANCELED 5 0 3 (40 # 100));
     Executor.ibkr_place := inr (ibkr_order IBKR.SUBMITTED 5 0 None);
     Executor.ibkr_polls := [ibkr_order IBKR.FILLED 5 5 (Some (43 # 100))];
     Executor.ibkr_at_timeout := ibkr_order IBKR.FILLED 5 5 (Some (43 # 100));
     Executor.ibkr_cancel := inr (ibkr_order IBKR.CANCELLED 5 0 None);
     Executor.hedge_place :=
       inr (kalshi_order Kalshi.NO Kalshi.RESTING 3 3 0 (99 # 100));
     Executor.hedge_get :=
       inr (kalshi_order Kalshi.NO Kalshi.EXECUTED 3 0 3 (99 # 100)) |}.

End Scenario.

(* ===================================================================== *)
(** * Facts about decimals *)
(* ===================================================================== *)

Section DecimalFacts.

Local Open Scope Q_scope.

Lemma geb_spec a b : Decimal.geb a b = true <-> b <= a.
Proof. unfold Decimal.geb. apply Qle_bool_iff. Qed.

Lemma leb_spec a b : Decimal.leb a b = true <-> a <= b.
Proof. unfold Decimal.leb. apply Qle_bool_iff. Qed.

Lemma gtb_spec a b : Decimal.gtb a b = true <-> b < a.
Proof.
  unfold Decimal.gtb. rewrite negb_true_iff.
  split.
  - intros H. apply Qnot_le_lt. intros Hle.
    apply Qle_bool_iff in Hle. congruence.
  - intros H. destruct (Qle_bool a b) eqn:E; [|reflexivity].
    apply Qle_bool_iff in E. exfalso. apply (Qlt_not_le _ _ H E).
Qed.

Lemma gtb_false a b : Decimal.gtb a b = false <-> a <= b.
Proof.
  unfold Decimal.gtb. rewrite negb_false_iff. apply Qle_bool_iff.
Qed.

Lemma geb_false a b : Decimal.geb a b = false <-> a < b.
Proof.
  unfold Decimal.geb. split.
  - intros H. apply Qnot_le_lt. intros Hle.
    apply Qle_bool_iff in Hle. congruence.
  - intros H. destruct (Qle_bool b a) eqn:E; [|reflexivity].
    apply Qle_bool_iff in E. exfalso. apply (Qlt_not_le _ _ H E).
Qed.

Lemma ltb_spec a b : Decimal.ltb a b = true <-> a < b.
Proof. unfold Decimal.ltb. apply (gtb_spec b a). Qed.

Lemma ltb_false a b : Decimal.ltb a b = false <-> b <= a.
Proof. unfold Decimal.ltb. apply (gtb_false b a). Qed.

Lemma cents_eq (c : Z) : c # 100 == inject_Z c * (1 # 100).
Proof. unfold Qeq. simpl. lia. Qed.

(** On non-negative amounts [ROUND_UP] is the ceiling to the cent. *)
Lemma quantize_nonneg x :
  0 <= x -> Decimal.quantize_cents_ROUND_UP x = Qceiling (x * 100) # 100.
Proof.
  intros H. unfold Decimal.quantize_cents_ROUND_UP.
  apply Qle_bool_iff in H. now rewrite H.
Qed.

Lemma quantize_mono x y :
  0 <= x -> x <= y ->
  Decimal.quantize_cents_ROUND_UP x <= Decimal.quantize_cents_ROUND_UP y.
Proof.
  intros Hx Hxy.
  rewrite (quantize_nonneg x Hx).
  rewrite (quantize_nonneg y) by (eapply Qle_trans; eassumption).
  assert (Hc : (Qceiling (x * 100) <= Qceiling (y * 100))%Z).
  { apply Qceiling_resp_le. lra. }
  unfold Qle. simpl. lia.
Qed.

Lemma quantize_bounds x :
  0 <= x ->
  x <= Decimal.quantize_cents_ROUND_UP x /\
  Decimal.quantize_cents_ROUND_UP x < x + (1 # 100).
Proof.
  intros Hx. rewrite (quantize_nonneg x Hx).
  pose proof (Qle_ceiling (x * 100)) as H1.
  pose proof (Qceiling_lt (x * 100)) as H2.
  assert (H3 : inject_Z (Qceiling (x * 100) - 1) ==
               inject_Z (Qceiling (x * 100)) - 1).
  { unfold Z.sub. rewrite inject_Z_plus. reflexivity. }
  rewrite H3 in H2. clear H3.
  rewrite cents_eq.
  generalize dependent (inject_Z (Qceiling (x * 100))).
  intros c H1 H2. split; lra.
Qed.

(** The result of [quantize] is a whole number of cents. *)
Lemma quantize_whole_cents x :
  exists n : Z, Decimal.quantize_cents_ROUND_UP x = n # 100.
Proof.
  unfold Decimal.quantize_cents_ROUND_UP.
  destruct (Qle_bool 0 x); eexists; reflexivity.
Qed.

End DecimalFacts.

(* ===================================================================== *)
(** * Fee model: rounding and monotonicity *)
(* ===================================================================== *)

Section FeeFacts.

Import FeeModel.
Local Open Scope Q_scope.

Lemma taker_fee_unfold s p q :
  taker_fee s p q = Decimal.quantize_cents_ROUND_UP (raw_fee s p q).
Proof. reflexivity. Qed.

Lemma inject_Z_pos (q : Z) : (1 <= q)%Z -> 1 <= inject_Z q.
Proof. intros H. rewrite Zle_Qle in H. exact H. Qed.

Lemma raw_fee_nonneg s p q :
  0 <= rate s -> 0 <= p -> p <= 1 -> (0 <= q)%Z -> 0 <= raw_fee s p q.
Proof.
  intros Hr Hp0 Hp1 Hq. unfold raw_fee.
  rewrite Zle_Qle in Hq.
  generalize dependent (inject_Z q). intros c Hc.
  assert (H1 : 0 <= rate s * c) by (apply Qmult_le_0_compat; assumption).
  assert (H2 : 0 <= rate s * c * p) by (apply Qmult_le_0_compat; assumption).
  apply Qmult_le_0_compat; [assumption | lra].
Qed.

Lemma raw_fee_mono_quantity s p q :
  0 <= rate s -> 0 <= p -> p <= 1 ->
  raw_fee s p q <= raw_fee s p (q + 1).
Proof.
  intros Hr Hp0 Hp1. unfold raw_fee.
  rewrite inject_Z_plus.
  generalize dependent (inject_Z q). intros c.
  assert (H : 0 <= rate s * p * (1 - p)).
  { apply Qmult_le_0_compat; [apply Qmult_le_0_compat; assumption | lra]. }
  assert (E : rate s * (c + inject_Z 1) * p * (1 - p)
              == rate s * c * p * (1 - p) + rate s * p * (1 - p)) by ring.
  rewrite E. lra.
Qed.

Lemma Qsquare_nonneg (x : Q) : 0 <= x * x.
Proof.
  destruct x as [n d]. unfold Qle, Qmult. simpl.
  rewrite Z.mul_1_r. apply Z.square_nonneg.
Qed.

(** [p (1 - p)] peaks at one half. *)
Lemma parabola_max (p : Q) : p * (1 - p) <= (50 # 100) * (1 - (50 # 100)).
Proof.
  pose proof (Qsquare_nonneg (p - (1 # 2))) as H.
  assert (E1 : (50 # 100) * (1 - (50 # 100)) == 1 # 4) by reflexivity.
  assert (E2 : p * (1 - p) == (1 # 4) - (p - (1 # 2)) * (p - (1 # 2))) by ring.
  rewrite E1, E2. lra.
Qed.

Lemma raw_fee_max_at_half s p q :
  0 <= rate s -> (0 <= q)%Z ->
  raw_fee s p q <= raw_fee s (50 # 100) q.
Proof.
  intros Hr Hq. unfold raw_fee.
  rewrite Zle_Qle in Hq.
  generalize dependent (inject_Z q). intros c Hc.
  assert (H1 : 0 <= rate s * c) by (apply Qmult_le_0_compat; assumption).
  rewrite <- !Qmult_assoc.
  rewrite (Qmult_assoc (rate s) c (p * (1 - p))).
  rewrite (Qmult_assoc (rate s) c ((50 # 100) * (1 - (50 # 100)))).
  rewrite (Qmult_comm (rate s * c) (p * (1 - p))).
  rewrite (Qmult_comm (rate s * c) ((50 # 100) * (1 - (50 # 100)))).
  apply Qmult_le_compat_r; [apply parabola_max | assumption].
Qed.

End FeeFacts.

Section ExactFeeFacts.

Import FeeModel.
Local Open Scope Q_scope.

(** In exact arithmetic, for a non-negative rate, a price between 0.01
    and 0.99 and a quantity of at least one contract, the fee is
    [rate * quantity * price * (1 - price)] rounded up to the next cent
    (a whole number of cents, not below the raw amount and less than one
    cent above it); it does not decrease when one more contract is
    added, and the fee at price 0.50 is at least the fee at any price. *)
Lemma exact_taker_fee_ceil_cents_monotone
    (s : KalshiFeeSchedule) (price : Q) (q : Z) :
  0 <= rate s ->
  1 # 100 <= price -> price <= 99 # 100 ->
  (1 <= q)%Z ->
  (exists n : Z, taker_fee s price q = n # 100) /\
  raw_fee s price q <= taker_fee s price q /\
  taker_fee s price q < raw_fee s price q + (1 # 100) /\
  taker_fee s price q <= taker_fee s price (q + 1) /\
  taker_fee s price q <= taker_fee s (50 # 100) q.
Proof.
  intros Hr Hlo Hhi Hq.
  assert (Hp0 : 0 <= price) by lra.
  assert (Hp1 : price <= 1) by lra.
  assert (Hq0 : (0 <= q)%Z) by lia.
  pose proof (raw_fee_nonneg s price q Hr Hp0 Hp1 Hq0) as Hraw.
  rewrite !taker_fee_unfold.
  split; [apply quantize_whole_cents|].
  split; [apply quantize_bounds; assumption|].
  split; [apply quantize_bounds; assumption|].
  split.
  - apply quantize_mono; [assumption|].
    apply raw_fee_mono_quantity; assumption.
  - apply quantize_mono; [assumption|].
    apply raw_fee_max_at_half; assumption.
Qed.

(** Scenario S1 of the specification: the fee on one contract at 0.40 is
    two cents, and the flat IBKR fee on one contract is one cent. *)
Example taker_fee_S1 : taker_fee KALSHI_FEES (40 # 100) 1 = 2 # 100.
Proof. reflexivity. Qed.

Example ibkr_fee_S1 : fee IBKR_FEES 1 == 1 # 100.
Proof. reflexivity. Qed.

End ExactFeeFacts.

(* ===================================================================== *)
(** * Fee model: the fee under the decimal context *)
(* ===================================================================== *)

Section ContextFacts.

Import DecimalContext.
Local Open Scope Z_scope.

(** A number below [10 ^ k] has at most [k] digits. *)
Lemma digits_aux_le fuel : forall n k,
  0 <= n < 10 ^ k -> 1 <= k -> digits_aux fuel n <= k.
Proof.
  induction fuel as [|fuel IH]; intros n k Hn Hk; simpl; [lia|].
  destruct (n <? 10) eqn:E; [lia|].
  apply Z.ltb_ge in E.
  assert (Hk2 : 2 <= k).
  { destruct (Z.eq_dec k 1) as [->|]; [|lia]. change (10 ^ 1) with 10 in Hn. lia. }
  assert (H : digits_aux fuel (n / 10) <= k - 1).
  { apply IH; [|lia]. split; [apply Z.div_pos; lia|].
    apply Z.div_lt_upper_bound; [lia|].
    replace k with (Z.succ (k - 1)) in Hn by lia.
    rewrite Z.pow_succ_r in Hn by lia. lia. }
  lia.
Qed.

Lemma digits_le c k : Z.abs c < 10 ^ k -> 1 <= k -> digits c <= k.
Proof.
  intros Hc Hk. unfold digits. apply digits_aux_le; [|assumption].
  split; [apply Z.abs_nonneg | assumption].
Qed.

(** [_fix] leaves a result alone when its coefficient fits the precision
    and its exponent is in range. *)
Lemma fix_exact c e :
  Z.abs c < 10 ^ prec -> Etiny <= e <= Etop ->
  _fix {| coefficient := c; exponent := e |}
  = inr {| coefficient := c; exponent := e |}.
Proof.
  intros Hc He. unfold _fix. cbn [coefficient exponent].
  pose proof (digits_le c prec Hc ltac:(unfold prec; lia)) as Hd.
  unfold Etiny, Etop, Emin, Emax, prec in *.
  destruct (c =? 0) eqn:E0.
  - apply Z.eqb_eq in E0. subst c. do 2 f_equal. lia.
  - destruct (_ <? _) eqn:E1; [apply Z.ltb_lt in E1; lia|].
    destruct (e <? _) eqn:E2; [apply Z.ltb_lt in E2; lia|].
    reflexivity.
Qed.


(** A product whose coefficient fits the precision is exact. *)
Lemma mul_exact a b :
  Z.abs (coefficient a * coefficient b) < 10 ^ prec ->
  Etiny <= exponent a + exponent b <= Etop ->
  mul a b = inr {| coefficient := coefficient a * coefficient b;
                   exponent := exponent a + exponent b |}.
Proof. intros Hc He. unfold mul. apply fix_exact; assumption. Qed.

(** [Decimal("1") - price] for a price in cents. *)
Lemma sub_one_cents c :
  1 <= c <= 99 ->
  sub {| coefficient := 1; exponent := 0 |} (cents c) = inr (cents (100 - c)).
Proof.
  intros Hc. unfold sub, cents. cbn [coefficient exponent].
  change (Z.min 0 (-2)) with (-2). change (0 - -2) with 2.
  change (-2 - -2) with 0. change (10 ^ 2) with 100. change (10 ^ 0) with 1.
  replace (1 * 100 - c * 1) with (100 - c) by lia.
  apply fix_exact.
  - unfold prec. lia.
  - unfold Etiny, Etop, Emin, Emax, prec. lia.
Qed.

Lemma parabola_cents c : 1 <= c <= 99 -> 1 <= c * (100 - c) <= 2500.
Proof.
  intros Hc.
  pose proof (Z.square_nonneg (c - 50)) as H1.
  assert (H2 : 0 <= (c - 1) * (99 - c)) by (apply Z.mul_nonneg_nonneg; lia).
  lia.
Qed.

(** Dropping digits with [ROUND_UP] is the ceiling of the division by
    [10 ^ k]. *)
Lemma drop_digits_ROUND_UP K k :
  0 <= K -> 0 <= k ->
  let n := drop_digits ROUND_UP K k in
  K <= n * 10 ^ k /\ (n - 1) * 10 ^ k < K /\ 0 <= n <= K.
Proof.
  intros HK Hk. unfold drop_digits, rounds_away.
  assert (HD : 0 < 10 ^ k) by (apply Z.pow_pos_nonneg; lia).
  rewrite (Z.abs_eq K HK).
  pose proof (Z.div_mod K (10 ^ k) ltac:(lia)) as E.
  pose proof (Z.mod_pos_bound K (10 ^ k) HD) as Hm.
  pose proof (Z.div_pos K (10 ^ k) HK HD) as Hquo.
  destruct (Z.eq_dec K 0) as [->|HK0].
  - rewrite Z.div_0_l, Z.mod_0_l by lia. simpl. lia.
  - rewrite (Z.sgn_pos K) by lia.
    destruct (K mod 10 ^ k =? 0) eqn:E0; cbn [negb].
    + apply Z.eqb_eq in E0. nia.
    + apply Z.eqb_neq in E0. nia.
Qed.

Lemma drop_digits_ROUND_UP_mono K K' k :
  0 <= K -> K <= K' -> 0 <= k ->
  drop_digits ROUND_UP K k <= drop_digits ROUND_UP K' k.
Proof.
  intros HK HKK Hk.
  pose proof (drop_digits_ROUND_UP K k HK Hk) as (H1 & H2 & _).
  pose proof (drop_digits_ROUND_UP K' k ltac:(lia) Hk) as (H1' & H2' & _).
  assert (HD : 0 < 10 ^ k) by (apply Z.pow_pos_nonneg; lia).
  nia.
Qed.


(** [quantize] to the cent of an amount whose coefficient fits the
    precision and that has at least four decimal places. *)
Lemma quantize_cents_exact K e :
  0 <= K < 10 ^ prec -> Etiny <= e <= -4 ->
  quantize {| coefficient := K; exponent := e |} (-2) ROUND_UP
  = inr (cents (drop_digits ROUND_UP K (-2 - e))).
Proof.
  intros HK He. unfold quantize. cbn [coefficient exponent].
  assert (Hrange : negb ((Etiny <=? -2) && (-2 <=? Emax)) = false) by reflexivity.
  rewrite Hrange.
  destruct (K =? 0) eqn:E0.
  - apply Z.eqb_eq in E0. subst K.
    unfold drop_digits. rewrite Z.mul_0_l. reflexivity.
  - apply Z.eqb_neq in E0.
    pose proof (digits_le K prec ltac:(rewrite Z.abs_eq; lia)
                  ltac:(unfold prec; lia)) as Hd.
    pose proof (drop_digits_ROUND_UP K (-2 - e) ltac:(lia) ltac:(lia))
      as (H1 & H2 & H3).
    set (n := drop_digits ROUND_UP K (-2 - e)) in *.
    pose proof (digits_le n prec ltac:(rewrite Z.abs_eq; lia)
                  ltac:(unfold prec; lia)) as Hdn.
    unfold adjusted, _rescale. cbn [coefficient exponent].
    apply Z.eqb_neq in E0. rewrite E0.
    assert (C1 : (Emax <? e + digits K - 1) = false)
      by (apply Z.ltb_ge; unfold Etiny, Emin, Emax, prec in *; lia).
    assert (C2 : (prec <? e + digits K - 1 - -2 + 1) = false)
      by (apply Z.ltb_ge; unfold Etiny, Emin, Emax, prec in *; lia).
    assert (C3 : (-2 <=? e) = false) by (apply Z.leb_gt; lia).
    rewrite C1, C2, C3. cbn [coefficient exponent]. fold n.
    assert (C4 : (Emax <? -2 + digits n - 1) = false)
      by (apply Z.ltb_ge; unfold Etiny, Emin, Emax, prec in *; lia).
    assert (C5 : (prec <? digits n) = false) by (apply Z.ltb_ge; lia).
    rewrite C4, C5.
    apply fix_exact.
    + rewrite Z.abs_eq; lia.
    + unfold Etiny, Etop, Emin, Emax, prec. lia.
Qed.

(** When the rate's coefficient times [quantity * 2500] is below
    [10 ^ 28] no product is rounded, and the fee is the exact product
    with its digits below the cent dropped by [ROUND_UP]. *)
Lemma taker_fee_exact rate c q :
  0 <= coefficient rate -> Etiny + 4 <= exponent rate <= 0 ->
  1 <= c <= 99 -> 0 <= q ->
  coefficient rate * q * 2500 < 10 ^ prec ->
  taker_fee rate (cents c) q
  = inr (cents (drop_digits ROUND_UP
                  (coefficient rate * q * c * (100 - c))
                  (2 - exponent rate))).
Proof.
  intros Hr He Hc Hq Hb.
  pose proof (parabola_cents c Hc) as Hpar.
  assert (HA : 0 <= coefficient rate * q) by (apply Z.mul_nonneg_nonneg; lia).
  set (A := coefficient rate * q) in *.
  assert (HAc : 0 <= A * c <= A * 2500) by nia.
  assert (HK : 0 <= A * c * (100 - c) <= A * 2500).
  { rewrite <- Z.mul_assoc. split; [apply Z.mul_nonneg_nonneg; lia|].
    apply Z.mul_le_mono_nonneg_l; lia. }
  unfold taker_fee. rewrite (sub_one_cents c Hc). cbn [bind].
  rewrite mul_exact; cbn [coefficient exponent of_int]; fold A;
    [|rewrite Z.abs_eq; lia
     |unfold Etiny, Etop, Emin, Emax, prec in *; lia].
  cbn [bind].
  rewrite mul_exact; cbn [coefficient exponent cents];
    [|rewrite Z.abs_eq; lia
     |unfold Etiny, Etop, Emin, Emax, prec in *; lia].
  cbn [bind].
  rewrite mul_exact; cbn [coefficient exponent cents];
    [|rewrite Z.abs_eq; lia
     |unfold Etiny, Etop, Emin, Emax, prec in *; lia].
  cbn [bind].
  rewrite quantize_cents_exact;
    [|lia|unfold Etiny, Etop, Emin, Emax, prec in *; lia].
  do 3 f_equal. lia.
Qed.


Local Open Scope Q_scope.

Lemma value_cents n : value (cents n) = n # 100.
Proof. reflexivity. Qed.

Lemma value_nonpos_exponent d :
  (exponent d <= 0)%Z ->
  value d == coefficient d # Z.to_pos (10 ^ (- exponent d)).
Proof.
  intros He. unfold value.
  destruct (0 <=? exponent d)%Z eqn:E; [|reflexivity].
  apply Z.leb_le in E. assert (E0 : exponent d = 0%Z) by lia.
  rewrite E0. simpl. unfold Qeq. simpl. lia.
Qed.

(** The exact amount as one fraction. *)
Lemma exact_raw_fee_cents rate c q :
  (exponent rate <= 0)%Z ->
  exact_raw_fee rate (cents c) q
  == (coefficient rate * q * c * (100 - c))
     # (Z.to_pos (10 ^ (- exponent rate)) * 10000).
Proof.
  intros He. unfold exact_raw_fee.
  rewrite (value_nonpos_exponent rate He), value_cents.
  set (P := Z.to_pos (10 ^ (- exponent rate))).
  unfold Qeq, Qmult, Qminus, Qplus, Qopp, inject_Z. cbn [Qnum Qden].
  rewrite !Pos2Z.inj_mul. generalize (Z.pos P). intros z. ring.
Qed.


Lemma ceiling_cents_bounds K e n :
  (e <= 0)%Z ->
  (K <= n * 10 ^ (2 - e))%Z -> ((n - 1) * 10 ^ (2 - e) < K)%Z ->
  K # (Z.to_pos (10 ^ (- e)) * 10000) <= n # 100 /\
  n # 100 < (K # (Z.to_pos (10 ^ (- e)) * 10000)) + (1 # 100).
Proof.
  intros He H1 H2.
  assert (HP : (0 < 10 ^ (- e))%Z) by (apply Z.pow_pos_nonneg; lia).
  replace (2 - e)%Z with (2 + - e)%Z in H1, H2 by lia.
  rewrite Z.pow_add_r in H1, H2 by lia.
  change (10 ^ 2)%Z with 100%Z in H1, H2.
  unfold Qle, Qlt, Qplus. cbn [Qnum Qden].
  rewrite !Pos2Z.inj_mul, Z2Pos.id by assumption.
  generalize dependent (10 ^ (- e))%Z. intros P H1 H2 HP.
  split; nia.
Qed.

(** Within the precision the fee is the exact amount rounded up to the
    next cent. *)
Lemma taker_fee_rounds_up rate c q :
  (0 <= coefficient rate)%Z -> (Etiny + 4 <= exponent rate <= 0)%Z ->
  (1 <= c <= 99)%Z -> (0 <= q)%Z ->
  (coefficient rate * q * 2500 < 10 ^ prec)%Z ->
  let n := drop_digits ROUND_UP (coefficient rate * q * c * (100 - c))
             (2 - exponent rate) in
  taker_fee rate (cents c) q = inr (cents n) /\
  exact_raw_fee rate (cents c) q <= value (cents n) /\
  value (cents n) < exact_raw_fee rate (cents c) q + (1 # 100).
Proof.
  intros Hr He Hc Hq Hb n.
  split; [apply taker_fee_exact; assumption|].
  pose proof (parabola_cents c Hc) as Hpar.
  assert (HK : (0 <= coefficient rate * q * c * (100 - c))%Z).
  { rewrite <- Z.mul_assoc. apply Z.mul_nonneg_nonneg; [|lia].
    apply Z.mul_nonneg_nonneg; lia. }
  pose proof (drop_digits_ROUND_UP _ (2 - exponent rate) HK ltac:(lia))
    as (H1 & H2 & _).
  fold n in H1, H2.
  rewrite value_cents, (exact_raw_fee_cents rate c q ltac:(lia)).
  apply ceiling_cents_bounds; [lia | assumption | assumption].
Qed.

Lemma cents_le n m : (n <= m)%Z -> value (cents n) <= value (cents m).
Proof. intros H. rewrite !value_cents. unfold Qle. simpl. lia. Qed.

(** The ceiling is the only integer in [[x, x + 1)]. *)
Lemma ceiling_unique (x : Q) (n : Z) :
  x <= inject_Z n -> inject_Z n < x + 1 -> Qceiling x = n.
Proof.
  intros H1 H2.
  pose proof (Qle_ceiling x) as H3.
  pose proof (Qceiling_lt x) as H4.
  assert (E : inject_Z (Qceiling x - 1) == inject_Z (Qceiling x) - 1).
  { unfold Z.sub. rewrite inject_Z_plus. reflexivity. }
  rewrite E in H4. clear E.
  assert (A : inject_Z (Qceiling x) < inject_Z (n + 1)).
  { rewrite inject_Z_plus. change (inject_Z 1) with 1. lra. }
  assert (B : inject_Z n < inject_Z (Qceiling x + 1)).
  { rewrite inject_Z_plus. change (inject_Z 1) with 1. lra. }
  rewrite <- Zlt_Qlt in A, B. lia.
Qed.

(** Within the precision the fee Python computes is the fee of the
    exact-arithmetic model [FeeModel.taker_fee]. *)
Lemma taker_fee_agrees_with_exact_arithmetic (rate : decimal) (c q : Z) :
  (0 <= coefficient rate)%Z ->
  (Etiny + 4 <= exponent rate <= 0)%Z ->
  (1 <= c <= 99)%Z ->
  (0 <= q)%Z ->
  (coefficient rate * q * 2500 < 10 ^ prec)%Z ->
  exists fee,
    taker_fee rate (cents c) q = inr fee /\
    value fee
    = FeeModel.taker_fee {| FeeModel.rate := value rate |} (value (cents c)) q.
Proof.
  intros Hr He Hc Hq Hb.
  destruct (taker_fee_rounds_up rate c q Hr He Hc Hq Hb) as (E & Hlo & Hhi).
  eexists. split; [exact E|].
  rewrite taker_fee_unfold.
  change (FeeModel.raw_fee {| FeeModel.rate := value rate |} (value (cents c)) q)
    with (exact_raw_fee rate (cents c) q).
  set (n := drop_digits ROUND_UP _ _) in *.
  set (raw := exact_raw_fee rate (cents c) q) in *.
  rewrite value_cents in *.
  assert (Hraw : 0 <= raw).
  { unfold raw. rewrite (exact_raw_fee_cents rate c q ltac:(lia)).
    pose proof (parabola_cents c Hc).
    unfold Qle. cbn [Qnum Qden]. rewrite Z.mul_1_r, Z.mul_0_l.
    repeat apply Z.mul_nonneg_nonneg; lia. }
  rewrite (quantize_nonneg raw Hraw). f_equal. symmetry.
  rewrite (cents_eq n) in Hlo, Hhi.
  apply ceiling_unique; lra.
Qed.

End ContextFacts.

Section ContextClaims.

Import DecimalContext.
Local Open Scope Q_scope.

(** Counterexample to C8 as stated, with the default rate 0.07: at
    682925417452621296276785 contracts and price 0.49 the product is
    rounded to 28 digits before [quantize], and the fee returned,
    11946414327498704335769.80, is below the exact amount, so it is not
    that amount rounded up; at [10 ^ 28] contracts the fee at price 0.01
    is returned while the fee at price 0.50 raises [InvalidOperation], so
    it is not at least the fee at every price. *)
Lemma taker_fee_beyond_precision :
  taker_fee default_rate (cents 49) 682925417452621296276785
  = inr (cents 1194641432749870433576980) /\
  value (cents 1194641432749870433576980)
  < exact_raw_fee default_rate (cents 49) 682925417452621296276785 /\
  taker_fee default_rate (cents 1) (10 ^ 28)
  = inr (cents 693000000000000000000000000) /\
  taker_fee default_rate (cents 50) (10 ^ 28) = inl InvalidOperation.
Proof.
  split; [|split; [|split]]; vm_compute; reflexivity.
Qed.

(** C8, amended.  For a rate with a non-negative coefficient and an
    exponent between -1000022 and 0 (the default 0.07 is 7E-2), a price
    of [c] cents with [1 <= c <= 99] and a quantity [q >= 1] such that
    [coefficient * (q + 1) * 2500 < 10 ^ 28], so that no product exceeds
    28 digits: [taker_fee] returns at [q], at [q + 1] and at price 0.50;
    the fee is a whole number of cents, not below
    [rate * q * price * (1 - price)] and less than one cent above it; it
    does not exceed the fee for [q + 1] contracts, nor the fee at price
    0.50. *)
Theorem taker_fee_ceil_cents_monotone_in_precision
    (rate : decimal) (c q : Z) :
  (0 <= coefficient rate)%Z ->
  (Etiny + 4 <= exponent rate <= 0)%Z ->
  (1 <= c <= 99)%Z ->
  (1 <= q)%Z ->
  (coefficient rate * (q + 1) * 2500 < 10 ^ prec)%Z ->
  exists fee fee_next fee_half : decimal,
    taker_fee rate (cents c) q = inr fee /\
    taker_fee rate (cents c) (q + 1) = inr fee_next /\
    taker_fee rate (cents 50) q = inr fee_half /\
    exponent fee = (-2)%Z /\
    exact_raw_fee rate (cents c) q <= value fee /\
    value fee < exact_raw_fee rate (cents c) q + (1 # 100) /\
    value fee <= value fee_next /\
    value fee <= value fee_half.
Proof.
  intros Hr He Hc Hq Hb.
  assert (Hbq : (coefficient rate * q * 2500 < 10 ^ prec)%Z) by nia.
  pose proof (parabola_cents c Hc) as Hpar.
  assert (HA : (0 <= coefficient rate * q)%Z)
    by (apply Z.mul_nonneg_nonneg; lia).
  assert (HK : (0 <= coefficient rate * q * c * (100 - c))%Z).
  { rewrite <- Z.mul_assoc. apply Z.mul_nonneg_nonneg; lia. }
  destruct (taker_fee_rounds_up rate c q Hr He Hc ltac:(lia) Hbq)
    as (E & Hlo & Hhi).
  destruct (taker_fee_rounds_up rate c (q + 1) Hr He Hc ltac:(lia) Hb)
    as (Enext & _).
  destruct (taker_fee_rounds_up rate 50 q Hr He ltac:(lia) ltac:(lia) Hbq)
    as (Ehalf & _).
  eexists _, _, _.
  split; [exact E|]. split; [exact Enext|]. split; [exact Ehalf|].
  split; [reflexivity|]. split; [exact Hlo|]. split; [exact Hhi|].
  split; apply cents_le; apply drop_digits_ROUND_UP_mono;
    try assumption; try lia.
  - rewrite <- !(Z.mul_assoc _ c (100 - c)).
    apply Z.mul_le_mono_nonneg_r; lia.
  - rewrite <- !(Z.mul_assoc _ _ (100 - _)).
    apply Z.mul_le_mono_nonneg_l; lia.
Qed.


(** The default rate, one contract at 0.40. *)
Lemma taker_fee_ceil_cents_monotone_in_precision_witness :
  exists fee fee_next fee_half : decimal,
    taker_fee default_rate (cents 40) 1 = inr fee /\
    taker_fee default_rate (cents 40) (1 + 1) = inr fee_next /\
    taker_fee default_rate (cents 50) 1 = inr fee_half /\
    exponent fee = (-2)%Z /\
    exact_raw_fee default_rate (cents 40) 1 <= value fee /\
    value fee < exact_raw_fee default_rate (cents 40) 1 + (1 # 100) /\
    value fee <= value fee_next /\
    value fee <= value fee_half.
Proof.
  apply (taker_fee_ceil_cents_monotone_in_precision default_rate 40 1).
  - vm_compute. discriminate.
  - split; vm_compute; discriminate.
  - lia.
  - lia.
  - vm_compute. reflexivity.
Defined.

(** Scenario S1 under the context: two cents on one contract at 0.40. *)
Example taker_fee_S1_context :
  taker_fee default_rate (cents 40) 1 = inr (cents 2).
Proof. vm_compute. reflexivity. Qed.

End ContextClaims.

(* ===================================================================== *)
(** * Arbitrage detector *)
(* ===================================================================== *)

Section DetectorFacts.

Import Tick Arbitrage.
Local Open Scope Q_scope.

Lemma check_opportunity_parity self kp ks ip is_ sd sym ts qty :
  1 <= kp + ip ->
  _check_opportunity self kp ks ip is_ sd sym ts qty = None.
Proof.
  intros H. unfold _check_opportunity.
  apply geb_spec in H. now rewrite H.
Qed.

Lemma check_opportunity_side self kp ks ip is_ sd sym ts qty o :
  _check_opportunity self kp ks ip is_ sd sym ts qty = Some o ->
  side o = sd /\ kalshi_price o = kp /\ ibkr_price o = ip /\
  kp + ip < 1 /\ min_profit self <= net_profit o.
Proof.
  unfold _check_opportunity.
  destruct (Decimal.geb (kp + ip) 1) eqn:E1; [discriminate|].
  match goal with
  | |- context [Decimal.ltb ?a ?b] => destruct (Decimal.ltb a b) eqn:E2
  end; [discriminate|].
  intros [= <-]. simpl.
  apply geb_false in E1. apply ltb_false in E2. auto.
Qed.

Lemma opp1_side self k i o :
  opp1 self k i = Some o -> side o = BUY_YES_KALSHI_NO_IBKR.
Proof. intros H. apply check_opportunity_side in H. tauto. Qed.

Lemma opp2_side self k i o :
  opp2 self k i = Some o -> side o = BUY_NO_KALSHI_YES_IBKR.
Proof. intros H. apply check_opportunity_side in H. tauto. Qed.

(** What [detect] returns, by cases on the two candidates. *)
Lemma detect_cases self k i :
  Tick.symbol k = Tick.symbol i ->
  detect self k i =
    match opp1 self k i, opp2 self k i with
    | Some o1, Some o2 =>
        Some (if Decimal.gtb (net_profit o1) (net_profit o2) then o1 else o2)
    | Some o1, None => Some o1
    | None, o2 => o2
    end.
Proof.
  intros H. unfold detect. rewrite H, String.eqb_refl. reflexivity.
Qed.

End DetectorFacts.

Section DetectorClaims.

Import Tick Arbitrage.
Local Open Scope Q_scope.

(** C6.  A pairing whose two prices sum to at least 1.00 yields no
    opportunity: [_check_opportunity] returns [None] on it, [detect]
    never returns the pairing P1 (resp. P2) when the sum of the Kalshi
    YES ask and the IBKR NO ask (resp. Kalshi NO ask and IBKR YES ask)
    is at least 1.00, and [detect] returns [None] when both sums are. *)
Theorem detect_parity (self : ArbitrageDetector) (k i : NormalizedTick) :
  (forall kp ks ip is_ sd sym ts qty,
      1 <= kp + ip ->
      _check_opportunity self kp ks ip is_ sd sym ts qty = None) /\
  (1 <= yes_ask k + no_ask i ->
   forall o, detect self k i = Some o -> side o <> BUY_YES_KALSHI_NO_IBKR) /\
  (1 <= no_ask k + yes_ask i ->
   forall o, detect self k i = Some o -> side o <> BUY_NO_KALSHI_YES_IBKR) /\
  (1 <= yes_ask k + no_ask i -> 1 <= no_ask k + yes_ask i ->
   detect self k i = None).
Proof.
  split; [intros; now apply check_opportunity_parity|].
  assert (H1 : 1 <= yes_ask k + no_ask i -> opp1 self k i = None).
  { intros H. now apply check_opportunity_parity. }
  assert (H2 : 1 <= no_ask k + yes_ask i -> opp2 self k i = None).
  { intros H. now apply check_opportunity_parity. }
  unfold detect.
  destruct (negb (String.eqb (Tick.symbol k) (Tick.symbol i))).
  { repeat split; intros; discriminate || reflexivity. }
  split; [|split].
  - intros H o. rewrite (H1 H).
    intros Ho. apply opp2_side in Ho. congruence.
  - intros H o. rewrite (H2 H).
    destruct (opp1 self k i) as [o1|] eqn:E1; [|discriminate].
    intros [= <-]. apply opp1_side in E1. congruence.
  - intros Ha Hb. now rewrite (H1 Ha), (H2 Hb).
Qed.

End DetectorClaims.

Section DetectorScenarios.

Import Tick Arbitrage Scenario.
Local Open Scope Q_scope.

Lemma detect_parity_witness :
  detect default_detector s2_kalshi s2_ibkr = None.
Proof.
  apply (proj2 (proj2 (proj2 (detect_parity default_detector s2_kalshi s2_ibkr)))).
  - vm_compute. discriminate.
  - vm_compute. discriminate.
Defined.

(** Scenario S1: the detector picks "YES on Kalshi at 0.40, NO on IBKR at
    0.43" with a gross profit of 0.17 and a net profit of 0.13. *)
Example detect_S1 :
  exists o, detect default_detector s1_kalshi s1_ibkr = Some o /\
            side o = BUY_YES_KALSHI_NO_IBKR /\
            kalshi_price o = 40 # 100 /\ ibkr_price o = 43 # 100 /\
            gross_profit o == 17 # 100 /\ net_profit o == 13 # 100.
Proof.
  eexists. split; [vm_compute; reflexivity|].
  repeat split.
Qed.

(** Counterexample to C7 as stated: with equal net profits on both
    pairings, [detect] returns P2 (NO on Kalshi, YES on IBKR), not P1. *)
Lemma detect_tie_returns_P2 :
  exists o1 o2,
    opp1 default_detector tie_kalshi tie_ibkr = Some o1 /\
    opp2 default_detector tie_kalshi tie_ibkr = Some o2 /\
    net_profit o1 == net_profit o2 /\
    detect default_detector tie_kalshi tie_ibkr = Some o2 /\
    side o2 = BUY_NO_KALSHI_YES_IBKR /\
    detect default_detector tie_kalshi tie_ibkr <> Some o1.
Proof.
  eexists. eexists.
  split; [vm_compute; reflexivity|].
  split; [vm_compute; reflexivity|].
  split; [reflexivity|].
  split; [vm_compute; reflexivity|].
  split; [reflexivity|].
  vm_compute. discriminate.
Qed.

(** C7, amended.  When both pairings survive, [detect] returns the one
    with the strictly larger net profit, and returns P2 (NO on Kalshi,
    YES on IBKR) when the two net profits are equal. *)
Theorem detect_best_of_two
    (self : ArbitrageDetector) (k i : NormalizedTick)
    (o1 o2 : ArbitrageOpportunity) :
  Tick.symbol k = Tick.symbol i ->
  opp1 self k i = Some o1 ->
  opp2 self k i = Some o2 ->
  (net_profit o2 < net_profit o1 -> detect self k i = Some o1) /\
  (net_profit o1 < net_profit o2 -> detect self k i = Some o2) /\
  (net_profit o1 == net_profit o2 -> detect self k i = Some o2) /\
  side o1 = BUY_YES_KALSHI_NO_IBKR /\ side o2 = BUY_NO_KALSHI_YES_IBKR.
Proof.
  intros Hs H1 H2. rewrite (detect_cases self k i Hs), H1, H2.
  repeat split.
  - intros H. apply gtb_spec in H. now rewrite H.
  - intros H. apply Qlt_le_weak, gtb_false in H. now rewrite H.
  - intros H. assert (Hle : net_profit o1 <= net_profit o2) by (rewrite H; apply Qle_refl).
    apply gtb_false in Hle. now rewrite Hle.
  - now apply opp1_side in H1.
  - now apply opp2_side in H2.
Qed.

Lemma detect_best_of_two_witness :
  exists o1 o2,
    (net_profit o2 < net_profit o1 ->
     detect default_detector tie_kalshi tie_ibkr = Some o1) /\
    (net_profit o1 < net_profit o2 ->
     detect default_detector tie_kalshi tie_ibkr = Some o2) /\
    (net_profit o1 == net_profit o2 ->
     detect default_detector tie_kalshi tie_ibkr = Some o2) /\
    side o1 = BUY_YES_KALSHI_NO_IBKR /\ side o2 = BUY_NO_KALSHI_YES_IBKR.
Proof.
  eexists. eexists.
  apply (detect_best_of_two default_detector tie_kalshi tie_ibkr).
  - reflexivity.
  - vm_compute. reflexivity.
  - vm_compute. reflexivity.
Defined.

End DetectorScenarios.

(* ===================================================================== *)
(** * Capital ledger: sums and signs *)
(* ===================================================================== *)

Section LedgerFacts.

Import Account.
Local Open Scope Q_scope.




Lemma add_position_cash s sym sd q c :
  cash_available (fst (add_position s sym sd q c)) = cash_available s /\
  cash_reserved (fst (add_position s sym sd q c)) = cash_reserved s.
Proof.
  unfold add_position.
  destruct (positions s !! position_key sym sd);
    match goal with
    | |- context [Decimal.div ?x ?y] => destruct (Decimal.div x y)
    end; simpl; auto.
Qed.



Lemma reserve_nonneg s a :
  cash_nonneg s -> 0 <= a -> cash_nonneg (fst (reserve s a)).
Proof.
  intros [Ha Hr] H0. unfold reserve.
  destruct (can_afford s a) eqn:E; simpl; [|split; assumption].
  apply geb_spec in E. unfold cash_nonneg. simpl. split; lra.
Qed.

Lemma release_nonneg s a :
  cash_nonneg s -> 0 <= a -> a <= cash_reserved s -> cash_nonneg (release s a).
Proof.
  intros [Ha Hr] H0 Hle. unfold cash_nonneg, release. simpl. split; lra.
Qed.

Lemma confirm_spend_nonneg s a :
  cash_nonneg s -> a <= cash_reserved s -> cash_nonneg (confirm_spend s a).
Proof.
  intros [Ha Hr] Hle. unfold cash_nonneg, confirm_spend. simpl. split; lra.
Qed.

Lemma add_position_nonneg s sym sd q c :
  cash_nonneg s -> cash_nonneg (fst (add_position s sym sd q c)).
Proof.
  intros H. unfold cash_nonneg.
  destruct (add_position_cash s sym sd q c) as [-> ->]. exact H.
Qed.

End LedgerFacts.

Section LedgerClaims.

Import Account.
Local Open Scope Q_scope.



(** A reserve / release sequence evaluated: 12.00 before and after. *)
Example transfers_example :
  cash_total (transfers Scenario.funded [Reserve 3; Release 1; Reserve 20; Release 2])
  == 12.
Proof. reflexivity. Qed.

(** Counterexample to C4 as stated: releasing 1.00 on an account that has
    reserved nothing starts from non-negative fields, takes a non-negative
    amount, and leaves [cash_reserved] at -1.00; [confirm_spend] does the
    same. *)
Lemma release_can_go_negative :
  cash_nonneg Scenario.empty_account /\ 0 <= 1 /\
  ~ cash_nonneg (release Scenario.empty_account 1) /\
  ~ cash_nonneg (confirm_spend Scenario.empty_account 1) /\
  cash_reserved (release Scenario.empty_account 1) == -1.
Proof.
  split; [split; discriminate|].
  split; [discriminate|].
  split; [|split; [|reflexivity]];
    intros [_ H]; vm_compute in H; apply H; reflexivity.
Qed.

(** C4, amended.  From a state with both cash fields non-negative and for
    a non-negative amount, [reserve] and [add_position] keep both fields
    non-negative; [release] and [confirm_spend] do so when the amount
    does not exceed [cash_reserved]. *)
Theorem cash_nonneg_preserved
    (s : AccountState) (a : Q) (sym sd : string) (q : Z) (c : Q) :
  cash_nonneg s -> 0 <= a ->
  cash_nonneg (fst (reserve s a)) /\
  cash_nonneg (fst (add_position s sym sd q c)) /\
  (a <= cash_reserved s ->
   cash_nonneg (release s a) /\ cash_nonneg (confirm_spend s a)).
Proof.
  intros Hs Ha.
  split; [now apply reserve_nonneg|].
  split; [now apply add_position_nonneg|].
  intros Hle. split.
  - now apply release_nonneg.
  - now apply confirm_spend_nonneg.
Qed.

Lemma cash_nonneg_preserved_witness :
  cash_nonneg (fst (reserve Scenario.funded 1)) /\
  cash_nonneg (fst (add_position Scenario.funded "EVT" "YES" 2 1)) /\
  cash_nonneg (release Scenario.funded 1) /\
  cash_nonneg (confirm_spend Scenario.funded 1).
Proof.
  destruct (cash_nonneg_preserved Scenario.funded 1 "EVT" "YES" 2 1)
    as (H1 & H2 & H3).
  - split; discriminate.
  - discriminate.
  - destruct H3 as [H3 H4]; [discriminate|].
    exact (conj H1 (conj H2 (conj H3 H4))).
Defined.

End LedgerClaims.

(* ===================================================================== *)
(** * Bounded event queue: accounting of the counters *)
(* ===================================================================== *)

Section QueueFacts.

Import EventBus.
Context {T : Type}.
Implicit Types (q : BoundedEventQueue T) (c : call T) (o : outcome T).

Lemma rejected_cons o (os : list (outcome T)) :
  rejected (o :: os) = rejection o + rejected os.
Proof.
  unfold rejected. simpl.
  destruct o as [[|]| | | | |]; simpl; lia.
Qed.

Lemma rejected_nil : rejected (@nil (outcome T)) = 0.
Proof. reflexivity. Qed.

Lemma full_spec q :
  full q = true <-> 0 < _max_size q /\ _max_size q <= qsize q.
Proof.
  unfold full. destruct (Z.leb_spec (_max_size q) 0).
  - split; [discriminate | lia].
  - rewrite Z.leb_le. lia.
Qed.

Lemma full_false q :
  full q = false <-> _max_size q <= 0 \/ qsize q < _max_size q.
Proof.
  unfold full. destruct (Z.leb_spec (_max_size q) 0).
  - split; [lia | reflexivity].
  - rewrite Z.leb_gt. lia.
Qed.

Lemma qsize_snoc q (l : list (T * Z)) x :
  qsize (set_queue q (l ++ [x])) = qsize (set_queue q l) + 1.
Proof. unfold qsize. simpl. rewrite List.length_app. simpl. lia. Qed.

Lemma qsize_call_overflow q x : qsize (call_overflow q x) = qsize q.
Proof. unfold call_overflow. now destruct (_overflow_callback q). Qed.

Lemma counters_call_overflow q x :
  _total_enqueued (call_overflow q x) = _total_enqueued q /\
  _total_dequeued (call_overflow q x) = _total_dequeued q /\
  _total_dropped (call_overflow q x) = _total_dropped q /\
  _max_size (call_overflow q x) = _max_size q /\
  _policy (call_overflow q x) = _policy q /\
  _queue (call_overflow q x) = _queue q.
Proof. unfold call_overflow. now destruct (_overflow_callback q). Qed.

(** [put] keeps the accounting, charging a rejected item to [r]. *)
Lemma put_accounted q r item timeout now :
  accounted q r ->
  accounted (fst (put q item timeout now))
            (r + rejection (snd (put q item timeout now))) /\
  _max_size (fst (put q item timeout now)) = _max_size q /\
  _policy (fst (put q item timeout now)) = _policy q.
Proof.
  intros [Hc Hb]. unfold put.
  destruct (full q) eqn:Hfull.
  - apply full_spec in Hfull. destruct Hfull as [Hpos Hge].
    specialize (Hb Hpos).
    destruct (_policy q) eqn:Hpol.
    + destruct timeout; simpl; unfold accounted, qsize in *; simpl;
        repeat split; auto; lia.
    + destruct (_queue q) as [|[dropped t] rest] eqn:Hq.
      { exfalso. unfold qsize in Hge. rewrite Hq in Hge. simpl in Hge. lia. }
      set (q1 := call_overflow (incr_dropped (set_queue q rest)) dropped).
      destruct (counters_call_overflow (incr_dropped (set_queue q rest)) dropped)
        as (E1 & E2 & E3 & E4 & E5 & E6).
      fold q1 in E1, E2, E3, E4, E5, E6. simpl in E1, E2, E3, E4, E5, E6.
      assert (Hs1 : qsize q1 = qsize q - 1).
      { unfold qsize. rewrite E6, Hq. simpl. lia. }
      destruct (full q1) eqn:Hf1.
      { apply full_spec in Hf1. rewrite E4 in Hf1. lia. }
      simpl. unfold accounted, qsize. simpl.
      rewrite List.length_app. simpl.
      unfold qsize in Hs1, Hc, Hb.
      rewrite E1, E2, E3, E4, E5. repeat split; try lia; auto.
    + destruct (counters_call_overflow (incr_dropped q) item)
        as (E1 & E2 & E3 & E4 & E5 & E6).
      simpl in *. unfold accounted, qsize.
      rewrite E1, E2, E3, E4, E5, E6. unfold qsize in Hc, Hb.
      repeat split; try lia; auto.
    + simpl. unfold accounted. repeat split; try lia; auto.
  - simpl. apply full_false in Hfull.
    unfold accounted, qsize in *. simpl. rewrite List.length_app. simpl.
    repeat split; try lia.
Qed.

Lemma record_dequeue_accounted q r x t rest now :
  accounted q r -> _queue q = (x, t) :: rest ->
  accounted (record_dequeue q rest t now) r.
Proof.
  intros [Hc Hb] Hq. unfold accounted, qsize in *. simpl.
  rewrite Hq in Hc, Hb. simpl length in Hc, Hb. split; lia.
Qed.

Lemma get_accounted q r timeout now :
  accounted q r ->
  accounted (fst (get q timeout now)) (r + rejection (snd (get q timeout now))) /\
  _max_size (fst (get q timeout now)) = _max_size q /\
  _policy (fst (get q timeout now)) = _policy q.
Proof.
  intros H. unfold get.
  match goal with |- context [if ?b then _ else _] => destruct b end.
  { simpl. rewrite Z.add_0_r. auto. }
  destruct (_queue q) as [|[x t] rest] eqn:Hq.
  - assert (E : forall b : bool,
               rejection (T := T)
                 (if b then RaisedTimeoutError else Blocked) = 0)
      by (intros []; reflexivity).
    simpl. rewrite E, Z.add_0_r. auto.
  - simpl. rewrite Z.add_0_r. repeat split.
    + eapply record_dequeue_accounted; eassumption.
    + eapply record_dequeue_accounted; eassumption.
Qed.

Lemma get_nowait_accounted q r now :
  accounted q r ->
  accounted (fst (get_nowait q now)) (r + rejection (snd (get_nowait q now))) /\
  _max_size (fst (get_nowait q now)) = _max_size q /\
  _policy (fst (get_nowait q now)) = _policy q.
Proof.
  intros H. unfold get_nowait.
  destruct (_queue q) as [|[x t] rest] eqn:Hq; simpl; rewrite Z.add_0_r.
  - auto.
  - repeat split; eapply record_dequeue_accounted; eassumption.
Qed.

Lemma step_accounted q r c :
  accounted q r ->
  accounted (fst (step q c)) (r + rejection (snd (step q c))) /\
  _max_size (fst (step q c)) = _max_size q /\
  _policy (fst (step q c)) = _policy q.
Proof.
  destruct c; simpl.
  - apply put_accounted.
  - apply get_accounted.
  - apply get_nowait_accounted.
Qed.

Lemma run_accounted (cs : list (call T)) : forall q r,
  accounted q r ->
  accounted (fst (run q cs)) (r + rejected (snd (run q cs))) /\
  _max_size (fst (run q cs)) = _max_size q /\
  _policy (fst (run q cs)) = _policy q.
Proof.
  induction cs as [|c cs IH]; intros q r H; simpl.
  - rewrite rejected_nil, Z.add_0_r. auto.
  - destruct (step_accounted q r c H) as (H1 & H2 & H3).
    destruct (step q c) as [q1 o] eqn:Hstep. simpl in H1, H2, H3.
    destruct (IH q1 _ H1) as (I1 & I2 & I3).
    destruct (run q1 cs) as [q2 os] eqn:Hrun. simpl in I1, I2, I3.
    assert (Hgo : accounted q2 (r + rejected (o :: os)) /\
                  _max_size q2 = _max_size q /\ _policy q2 = _policy q).
    { rewrite rejected_cons, Z.add_assoc. repeat split; try congruence;
        apply I1. }
    destruct o; simpl; try exact Hgo.
    rewrite rejected_cons, rejected_nil. simpl. rewrite !Z.add_0_r.
    simpl in H1. rewrite Z.add_0_r in H1. auto.
Qed.

Lemma new_accounted max_size policy cb :
  accounted (new (T := T) max_size policy cb) 0.
Proof. unfold accounted, qsize. simpl. split; lia. Qed.

(** Under [DROP_OLDEST] and [RAISE] no put is ever answered [False]. *)
Lemma put_never_rejects q r item timeout now :
  accounted q r ->
  _policy q = DROP_OLDEST \/ _policy q = RAISE ->
  rejection (snd (put q item timeout now)) = 0.
Proof.
  intros [Hc Hb] Hpol. unfold put.
  destruct (full q) eqn:Hfull; [|reflexivity].
  apply full_spec in Hfull. destruct Hfull as [Hpos Hge].
  destruct Hpol as [-> | ->]; [|reflexivity].
  destruct (_queue q) as [|[dropped t] rest] eqn:Hq.
  { exfalso. unfold qsize in Hge. rewrite Hq in Hge. simpl in Hge. lia. }
  set (q1 := call_overflow (incr_dropped (set_queue q rest)) dropped).
  destruct (counters_call_overflow (incr_dropped (set_queue q rest)) dropped)
    as (E1 & E2 & E3 & E4 & E5 & E6).
  fold q1 in E4, E6. simpl in E4, E6.
  destruct (full q1) eqn:Hf1; [|reflexivity].
  apply full_spec in Hf1. rewrite E4 in Hf1.
  unfold qsize in Hf1, Hb, Hge. rewrite E6 in Hf1. rewrite Hq in Hb, Hge.
  simpl in Hb, Hge. specialize (Hb Hpos). lia.
Qed.

Lemma run_never_rejects (cs : list (call T)) : forall q r,
  accounted q r ->
  _policy q = DROP_OLDEST \/ _policy q = RAISE ->
  rejected (snd (run q cs)) = 0.
Proof.
  induction cs as [|c cs IH]; intros q r H Hpol; simpl.
  - reflexivity.
  - destruct (step_accounted q r c H) as (H1 & H2 & H3).
    assert (Hrej : rejection (snd (step q c)) = 0).
    { destruct c; simpl.
      - eapply put_never_rejects; eassumption.
      - unfold get.
        repeat match goal with
               | |- context [if ?b then _ else _] => destruct b
               | |- context [match ?l with [] => _ | _ :: _ => _ end] =>
                   destruct l as [|[? ?] ?]
               end; reflexivity.
      - unfold get_nowait. destruct (_queue q) as [|[? ?] ?]; reflexivity. }
    destruct (step q c) as [q1 o] eqn:Hstep. simpl in H1, H2, H3, Hrej.
    assert (Hpol1 : _policy q1 = DROP_OLDEST \/ _policy q1 = RAISE)
      by (rewrite H3; exact Hpol).
    specialize (IH q1 _ H1 Hpol1).
    destruct (run q1 cs) as [q2 os]. simpl in IH.
    destruct o; simpl; rewrite ?rejected_cons, ?IH, ?rejected_nil;
      simpl in Hrej; simpl; lia.
Qed.

End QueueFacts.

Section QueueClaims.

Import EventBus.

(** Scenario S6: [DROP_OLDEST] with capacity 3 keeps the last three items
    and counts two drops. *)
Example drop_oldest_S6 :
  let q := fst (run (new 3 DROP_OLDEST false) Scenario.s6_burst) in
  items q = [3; 4; 5] /\ _total_dropped q = 2 /\ _total_enqueued q = 5.
Proof. repeat split. Qed.

(** Counterexample to C9 as stated: under [DROP_NEWEST] with capacity 1,
    after two puts one item is queued, one was enqueued and one dropped,
    so [enqueued - dequeued - dropped] is 0 while the size is 1.  And a
    queue created with capacity 0 is unbounded: one put takes its size
    above the capacity. *)
Lemma drop_newest_breaks_conservation :
  (let q := fst (run (new 1 DROP_NEWEST false) Scenario.two_puts) in
   _total_enqueued q = 1 /\ _total_dequeued q = 0 /\ _total_dropped q = 1 /\
   qsize q = 1 /\ ~ conservation q) /\
  (let q := fst (run (new 0 DROP_OLDEST false) Scenario.two_puts) in
   _max_size q = 0 /\ qsize q = 2 /\ ~ qsize q <= _max_size q).
Proof.
  split.
  - repeat split. unfold conservation. vm_compute. discriminate.
  - repeat split. vm_compute. intros H. apply H. reflexivity.
Qed.

(** C9, amended.  For a queue created with any capacity and policy and any
    sequence of put and get calls, [total_enqueued - total_dequeued -
    total_dropped] equals the queue size minus the number of puts that
    were answered [False] (items counted as dropped that never entered
    the queue); so the conservation law holds whenever no put was
    rejected, in particular always under [DROP_OLDEST] and [RAISE]; and
    with a positive capacity the size never exceeds the capacity. *)
Theorem queue_counters_accounted {T : Type}
    (max_size : Z) (policy : BackpressurePolicy) (callback : bool)
    (cs : list (call T)) :
  let q := fst (run (new max_size policy callback) cs) in
  let os := snd (run (new max_size policy callback) cs) in
  _total_enqueued q - _total_dequeued q - _total_dropped q
    = qsize q - rejected os /\
  (rejected os = 0 -> conservation q) /\
  (policy = DROP_OLDEST \/ policy = RAISE -> conservation q) /\
  (0 < max_size -> qsize q <= max_size).
Proof.
  intros q os.
  destruct (run_accounted cs _ 0 (new_accounted max_size policy callback))
    as ([Hc Hb] & Hm & Hp).
  fold q in Hc, Hb, Hm, Hp. fold os in Hc. simpl in Hm, Hp.
  unfold conservation.
  split; [lia|]. split; [lia|]. split.
  - intros Hpol.
    assert (H0 : rejected os = 0).
    { unfold os. apply (run_never_rejects cs _ 0).
      - apply new_accounted.
      - exact Hpol. }
    lia.
  - intros Hpos. rewrite <- Hm. apply Hb. lia.
Qed.

Lemma queue_counters_accounted_witness :
  let q := fst (run (new 3 DROP_OLDEST false) Scenario.s6_burst) in
  conservation q /\ qsize q <= 3.
Proof.
  destruct (queue_counters_accounted 3 DROP_OLDEST false Scenario.s6_burst)
    as (_ & _ & H3 & H4).
  split.
  - apply H3. left. reflexivity.
  - apply H4. lia.
Defined.

End QueueClaims.

(* ===================================================================== *)
(** * Opportunity gate: staleness *)
(* ===================================================================== *)

Section GateFacts.

Import Monitor.
Local Open Scope Q_scope.

Lemma cache_update_fresh c tick now :
  cache_tick (cache_update c tick now) = Some tick /\
  cache_timestamp_ns (cache_update c tick now) = now.
Proof. split; reflexivity. Qed.

Lemma cache_is_stale_spec c max_age now :
  cache_is_stale c max_age now = true <->
  cache_tick c = None \/ cache_timestamp_ns c = 0%Z \/
  max_age_ns max_age < inject_Z (now - cache_timestamp_ns c).
Proof.
  unfold cache_is_stale.
  destruct (cache_tick c) as [t|]; [|intuition].
  destruct (Z.eqb_spec (cache_timestamp_ns c) 0) as [E|E]; [intuition|].
  rewrite gtb_spec. intuition discriminate.
Qed.

Lemma partial_is_stale_spec p max_age now :
  partial_is_stale p max_age now = true <->
  partial_timestamp_ns p = 0%Z \/
  max_age_ns max_age < inject_Z (now - partial_timestamp_ns p).
Proof.
  unfold partial_is_stale.
  destruct (Z.eqb_spec (partial_timestamp_ns p) 0) as [E|E]; [intuition|].
  rewrite gtb_spec. intuition.
Qed.

Lemma handle_stale_kalshi self opp now_kalshi now_ibkr :
  kalshi_tick_stale self (Arbitrage.symbol opp) now_kalshi ->
  _handle_opportunity self opp now_kalshi now_ibkr
  = (stale_rejection self, RejectedStale).
Proof.
  unfold kalshi_tick_stale, _handle_opportunity. simpl.
  destruct (_kalshi_cache self !! Arbitrage.symbol opp) as [c|]; [|reflexivity].
  intros H. apply cache_is_stale_spec in H. now rewrite H.
Qed.

Lemma handle_stale_ibkr self opp now_kalshi now_ibkr :
  ibkr_tick_stale self (Arbitrage.symbol opp) now_ibkr ->
  _handle_opportunity self opp now_kalshi now_ibkr
  = (stale_rejection self, RejectedStale).
Proof.
  unfold ibkr_tick_stale, _handle_opportunity. simpl.
  intros H.
  match goal with
  | |- (if ?b then _ else _) = _ => destruct b; [reflexivity|]
  end.
  destruct (_ibkr_partials self !! Arbitrage.symbol opp) as [p|]; [|reflexivity].
  apply partial_is_stale_spec in H. now rewrite H.
Qed.

End GateFacts.

Section GateClaims.

Import Monitor.
Local Open Scope Q_scope.

(** C5.  If, when the gate checks it, the last Kalshi tick or the last
    IBKR tick for the opportunity's symbol is older than
    [max_stale_seconds], or none was ever received, then
    [_handle_opportunity] stops at the staleness check: it counts the
    opportunity as detected and as stale (one more each), counts nothing
    as valid, spawns no task, and leaves the ledger and the caches as
    they were; no sizing or validation is evaluated. *)
Theorem stale_opportunity_rejected
    (self : ArbitrageMonitor) (opp : Arbitrage.ArbitrageOpportunity)
    (now_kalshi now_ibkr : Z) :
  kalshi_tick_stale self (Arbitrage.symbol opp) now_kalshi \/
  ibkr_tick_stale self (Arbitrage.symbol opp) now_ibkr ->
  let after := fst (_handle_opportunity self opp now_kalshi now_ibkr) in
  snd (_handle_opportunity self opp now_kalshi now_ibkr) = RejectedStale /\
  _opportunities_stale after = (_opportunities_stale self + 1)%Z /\
  _opportunities_detected after = (_opportunities_detected self + 1)%Z /\
  _opportunities_valid after = _opportunities_valid self /\
  tasks_created after = tasks_created self /\
  _capital after = _capital self /\
  _kalshi_cache after = _kalshi_cache self /\
  _ibkr_partials after = _ibkr_partials self.
Proof.
  intros H after.
  assert (E : _handle_opportunity self opp now_kalshi now_ibkr
              = (stale_rejection self, RejectedStale)).
  { destruct H as [H|H].
    - now apply handle_stale_kalshi.
    - now apply handle_stale_ibkr. }
  unfold after. rewrite E. simpl. repeat split.
Qed.

(** Scenario S3: the Kalshi tick is ten seconds old when the gate runs
    and the bound is five seconds. *)
Lemma stale_opportunity_rejected_witness :
  snd (_handle_opportunity Scenario.s3_monitor Scenario.s1_opportunity
         110000000000 110000000000) = RejectedStale /\
  _opportunities_stale
    (fst (_handle_opportunity Scenario.s3_monitor Scenario.s1_opportunity
            110000000000 110000000000)) = 1%Z.
Proof.
  destruct (stale_opportunity_rejected Scenario.s3_monitor
              Scenario.s1_opportunity 110000000000 110000000000)
    as (H1 & H2 & _).
  - left. right. right. vm_compute. reflexivity.
  - split; [exact H1 | exact H2].
Defined.

(** With both ticks fresh the same opportunity passes the gate and is
    sized to 23 contracts by the IBKR cash. *)
Example fresh_opportunity_accepted :
  exists opp,
    tasks_created
      (fst (_handle_opportunity Scenario.s3_monitor Scenario.s1_opportunity
              104000000000 110000000000))
    = [ExecuteOpportunity opp 23] /\
    Arbitrage.net_profit opp == 306 # 100.
Proof. eexists. split; [vm_compute; reflexivity | reflexivity]. Qed.

End GateClaims.

(* ===================================================================== *)
(** * Messages *)
(* ===================================================================== *)

Section MessageFacts.

Import Fmt.
Local Open Scope string_scope.

Lemma substring_whole (s : string) : substring 0 (String.length s) s = s.
Proof. induction s as [|a s IH]; simpl; [reflexivity | now rewrite IH]. Qed.

Lemma substring_suffix (pre s : string) :
  substring (String.length pre) (String.length s) (pre ++ s) = s.
Proof.
  induction pre as [|a pre IH]; simpl; [apply substring_whole | exact IH].
Qed.

Lemma index_suffix (pre s : string) :
  s <> "" -> String.index 0 s (pre ++ s) <> None.
Proof.
  intros Hs Hnone.
  apply (index_correct3 0 (String.length pre) s (pre ++ s) Hnone Hs).
  - apply Nat.le_0_l.
  - apply substring_suffix.
Qed.

Lemma string_app_assoc (a b c : string) :
  String.append (String.append a b) c = String.append a (String.append b c).
Proof.
  induction a as [|x a IH]; [reflexivity|].
  change (String x (String.append (String.append a b) c)
          = String x (String.append a (String.append b c))).
  now rewrite IH.
Qed.

Lemma mentions_suffix (pre needle : string) :
  needle <> "" -> mentions needle [Lit (pre ++ needle)] = true.
Proof.
  intros H. unfold mentions. simpl.
  destruct (String.index 0 needle (pre ++ needle)) eqn:E; [reflexivity|].
  exfalso. now apply (index_suffix pre needle).
Qed.

End MessageFacts.

(* ===================================================================== *)
(** * Executor: what each leg sends and reports *)
(* ===================================================================== *)

Section LegFacts.

Import Fmt Executor.
Local Open Scope Q_scope.

Lemma kalshi_orders_app a b :
  kalshi_orders (a ++ b) = kalshi_orders a ++ kalshi_orders b.
Proof. unfold kalshi_orders. apply List.filter_app. Qed.

Lemma ibkr_orders_app a b :
  ibkr_orders (a ++ b) = ibkr_orders a ++ ibkr_orders b.
Proof. unfold ibkr_orders. apply List.filter_app. Qed.

(** The fill loop places no order. *)
Lemma kalshi_wait_places_nothing w polls : forall order,
  kalshi_orders (snd (kalshi_wait w order polls)) = [] /\
  ibkr_orders (snd (kalshi_wait w order polls)) = [].
Proof.
  induction polls as [|answer rest IH]; intros order; simpl.
  - destruct (kalshi_cancel w); simpl; auto.
  - destruct answer as [e|order1]; simpl; [auto|].
    destruct (Kalshi.is_filled order1); simpl; [auto|].
    destruct (negb (Kalshi.is_open order1)); simpl; [auto|].
    specialize (IH order1).
    destruct (kalshi_wait w order1 rest) as [r more]. simpl in *.
    destruct IH as [-> ->]. auto.
Qed.

(** A leg reported filled carries the fill count of an order that the
    venue showed with nothing remaining and a positive fill count. *)
Lemma kalshi_wait_filled w polls : forall order,
  d_filled (fst (kalshi_wait w order polls)) = true ->
  exists seen,
    In (inr seen) polls /\ Kalshi.is_filled seen = true /\
    d_fill_quantity (fst (kalshi_wait w order polls))
      = Some (Kalshi.fill_count seen) /\
    d_fill_price (fst (kalshi_wait w order polls)) = Some (Kalshi.price seen).
Proof.
  induction polls as [|answer rest IH]; intros order; simpl.
  - destruct (kalshi_cancel w); simpl; discriminate.
  - destruct answer as [e|order1]; simpl; [discriminate|].
    destruct (Kalshi.is_filled order1) eqn:Ef; simpl.
    + intros _. exists order1. auto.
    + destruct (negb (Kalshi.is_open order1)); simpl; [discriminate|].
      specialize (IH order1).
      destruct (kalshi_wait w order1 rest) as [r more]. simpl in *.
      intros H. destruct (IH H) as (seen & Hin & Hf & Hq & Hp).
      exists seen. auto.
Qed.

Lemma execute_kalshi_orders w ticker side quantity price :
  kalshi_orders (snd (_execute_kalshi w ticker side quantity price))
  = [KalshiPlaceOrder ticker (kalshi_side_of side) quantity
       (Decimal.to_int (price * 100))] /\
  ibkr_orders (snd (_execute_kalshi w ticker side quantity price)) = [].
Proof.
  unfold _execute_kalshi.
  destruct (kalshi_place w) as [e|order]; simpl; [auto|].
  pose proof (kalshi_wait_places_nothing w (kalshi_polls w) order) as [H1 H2].
  destruct (kalshi_wait w order (kalshi_polls w)) as [r more]. simpl in *.
  rewrite H1, H2. auto.
Qed.

Lemma execute_kalshi_filled w ticker side quantity price :
  d_filled (fst (_execute_kalshi w ticker side quantity price)) = true ->
  exists seen,
    In (inr seen) (kalshi_polls w) /\ Kalshi.is_filled seen = true /\
    d_fill_quantity (fst (_execute_kalshi w ticker side quantity price))
      = Some (Kalshi.fill_count seen) /\
    d_fill_price (fst (_execute_kalshi w ticker side quantity price))
      = Some (Kalshi.price seen).
Proof.
  unfold _execute_kalshi.
  destruct (kalshi_place w) as [e|order]; simpl; [discriminate|].
  pose proof (kalshi_wait_filled w (kalshi_polls w) order) as H.
  destruct (kalshi_wait w order (kalshi_polls w)) as [r more]. exact H.
Qed.

Lemma is_filled_positive order :
  Kalshi.is_filled order = true ->
  Kalshi.remaining_count order = 0%Z /\ (0 < Kalshi.fill_count order)%Z.
Proof.
  unfold Kalshi.is_filled. rewrite andb_true_iff, Z.eqb_eq, Z.ltb_lt. auto.
Qed.

Lemma execute_ibkr_orders w con_id quantity price :
  ibkr_orders (snd (_execute_ibkr w con_id quantity price))
  = [IbkrPlaceOrder con_id quantity price] /\
  kalshi_orders (snd (_execute_ibkr w con_id quantity price)) = [].
Proof.
  unfold _execute_ibkr.
  destruct (ibkr_place w) as [e|order]; simpl; [auto|].
  destruct (IBKR.is_filled _); simpl; [auto|].
  destruct (IBKR.is_open _); simpl; [|auto].
  destruct (ibkr_cancel w); simpl; auto.
Qed.

Lemma rollback_kalshi_orders w ticker side quantity :
  kalshi_orders (snd (_rollback_kalshi w ticker side quantity))
  = [KalshiPlaceOrder ticker (Kalshi.opposite (kalshi_side_of side)) quantity 99] /\
  ibkr_orders (snd (_rollback_kalshi w ticker side quantity)) = [].
Proof.
  unfold _rollback_kalshi, kalshi_side_of.
  destruct (String.eqb side "YES"); simpl;
    destruct (hedge_place w) as [e|o1]; simpl; auto;
    destruct (hedge_get w) as [e|o2]; simpl; auto;
    destruct (Kalshi.is_filled o2); simpl; auto.
Qed.

Lemma MANUAL_nonempty : MANUAL <> ""%string.
Proof. discriminate. Qed.

(** Unless the hedge is seen filled, the details end with the marker. *)
Lemma rollback_kalshi_details w ticker side quantity :
  hedge_filled w = false ->
  mentions MANUAL (snd (fst (_rollback_kalshi w ticker side quantity))) = true /\
  fst (fst (_rollback_kalshi w ticker side quantity)) = false.
Proof.
  unfold _rollback_kalshi, hedge_filled.
  destruct (hedge_place w) as [e|o1]; [|destruct (hedge_get w) as [e|o2]];
    cbv beta iota zeta; cbn [fst snd].
  - intros _. split; [|reflexivity].
    rewrite <- string_app_assoc, <- string_app_assoc.
    apply mentions_suffix, MANUAL_nonempty.
  - intros _. split; [|reflexivity].
    rewrite <- string_app_assoc, <- string_app_assoc.
    apply mentions_suffix, MANUAL_nonempty.
  - intros ->. cbn [fst snd]. split; [|reflexivity].
    rewrite <- string_app_assoc, <- string_app_assoc.
    apply mentions_suffix, MANUAL_nonempty.
Qed.

End LegFacts.

(* ===================================================================== *)
(** * Executor: the paths of [execute] *)
(* ===================================================================== *)

Section ExecutorFacts.

Import Fmt Executor.
Local Open Scope Q_scope.

(** [commit] touches neither the leg fields nor the rollback flag. *)
Lemma commit_keeps capital result opp kc ic :
  kalshi_filled (fst (commit capital result opp kc ic)) = kalshi_filled result /\
  ibkr_filled (fst (commit capital result opp kc ic)) = ibkr_filled result /\
  kalshi_fill_quantity (fst (commit capital result opp kc ic))
    = kalshi_fill_quantity result /\
  rolled_back (fst (commit capital result opp kc ic)) = rolled_back result.
Proof.
  unfold commit, emergency_cleanup.
  destruct (Account.add_position _ _ _ _ _) as [k [e|]]; [simpl; auto|].
  destruct (Account.add_position _ _ _ _ _) as [i [e|]]; simpl; auto.
Qed.

Lemma leg_b_spec w mapping capital result opp quantity kc ic :
  let x := leg_b w mapping capital result opp quantity kc ic in
  kalshi_filled (result_of x) = kalshi_filled result /\
  kalshi_fill_quantity (result_of x) = kalshi_fill_quantity result /\
  ibkr_orders (calls_of x)
    = [IbkrPlaceOrder (ibkr_con_id result) quantity (Arbitrage.ibkr_price opp)] /\
  (ibkr_filled (result_of x) = true ->
   rolled_back (result_of x) = rolled_back result) /\
  (ibkr_filled (result_of x) = false ->
   rolled_back (result_of x) = true /\
   success (result_of x) = success result /\
   ledger_of x
     = Account.with_ibkr capital (Account.release (Account.ibkr capital) ic) /\
   kalshi_orders (calls_of x)
     = [hedge_order mapping opp (kalshi_fill_quantity result)] /\
   exists details,
     rollback_details (result_of x) = Some details /\
     (hedge_filled w = false -> mentions MANUAL details = true)).
Proof.
  unfold leg_b, result_of, ledger_of, calls_of.
  pose proof (execute_ibkr_orders w (ibkr_con_id result) quantity
                (Arbitrage.ibkr_price opp)) as [Hi Hk].
  destruct (_execute_ibkr w (ibkr_con_id result) quantity
              (Arbitrage.ibkr_price opp)) as [ir cb].
  cbn [fst snd] in Hi, Hk.
  change (ibkr_filled (set_ibkr_leg result ir)) with (d_filled ir).
  change (kalshi_fill_quantity (set_ibkr_leg result ir))
    with (kalshi_fill_quantity result).
  destruct (d_filled ir) eqn:Ef; cbn [negb].
  - pose proof (commit_keeps capital (set_ibkr_leg result ir) opp kc ic)
      as (C1 & C2 & C3 & C4).
    destruct (commit capital (set_ibkr_leg result ir) opp kc ic) as [r c].
    cbn [fst snd] in *.
    rewrite C1, C2, C3, C4. simpl. rewrite Ef.
    repeat split; auto; discriminate.
  - pose proof (rollback_kalshi_orders w (kalshi_ticker mapping)
                  (Arbitrage.kalshi_side opp) (kalshi_fill_quantity result))
      as [Rk Ri].
    pose proof (rollback_kalshi_details w (kalshi_ticker mapping)
                  (Arbitrage.kalshi_side opp) (kalshi_fill_quantity result))
      as Rd.
    destruct (_rollback_kalshi w (kalshi_ticker mapping)
                (Arbitrage.kalshi_side opp) (kalshi_fill_quantity result))
      as [[flag details] ch].
    cbn [fst snd] in *.
    rewrite ibkr_orders_app, kalshi_orders_app, Hi, Hk, Rk, Ri.
    simpl. rewrite Ef.
    repeat split; auto; try discriminate.
    exists details. split; [reflexivity|]. intros Hh. now apply Rd.
Qed.


Lemma leg_a_spec w mapping capital result opp quantity kc ic :
  let x := leg_a w mapping capital result opp quantity kc ic in
  (kalshi_filled (result_of x) = false ->
   success (result_of x) = success result /\
   rolled_back (result_of x) = rolled_back result /\
   ledger_of x
     = Account.with_ibkr
         (Account.with_kalshi capital
            (Account.release (Account.kalshi capital) kc))
         (Account.release
            (Account.ibkr
               (Account.with_kalshi capital
                  (Account.release (Account.kalshi capital) kc))) ic) /\
   kalshi_orders (calls_of x) = [leg_a_order mapping opp quantity] /\
   ibkr_orders (calls_of x) = []) /\
  (kalshi_filled (result_of x) = true ->
   (0 < kalshi_fill_quantity (result_of x))%Z /\
   (exists seen,
      In (inr seen) (kalshi_polls w) /\ Kalshi.is_filled seen = true /\
      kalshi_fill_quantity (result_of x) = Kalshi.fill_count seen) /\
   ibkr_orders (calls_of x)
     = [IbkrPlaceOrder (ibkr_con_id result) quantity (Arbitrage.ibkr_price opp)] /\
   (ibkr_filled (result_of x) = true ->
    rolled_back (result_of x) = rolled_back result) /\
   (ibkr_filled (result_of x) = false ->
    rolled_back (result_of x) = true /\
    success (result_of x) = success result /\
    ledger_of x
      = Account.with_ibkr capital (Account.release (Account.ibkr capital) ic) /\
    kalshi_orders (calls_of x)
      = [leg_a_order mapping opp quantity;
         hedge_order mapping opp (kalshi_fill_quantity (result_of x))] /\
    exists details,
      rollback_details (result_of x) = Some details /\
      (hedge_filled w = false -> mentions MANUAL details = true))).
Proof.
  unfold leg_a.
  pose proof (execute_kalshi_orders w (kalshi_ticker mapping)
                (Arbitrage.kalshi_side opp) quantity (Arbitrage.kalshi_price opp))
    as [Hk Hi].
  pose proof (execute_kalshi_filled w (kalshi_ticker mapping)
                (Arbitrage.kalshi_side opp) quantity (Arbitrage.kalshi_price opp))
    as Hf.
  destruct (_execute_kalshi w (kalshi_ticker mapping)
              (Arbitrage.kalshi_side opp) quantity (Arbitrage.kalshi_price opp))
    as [kr ca].
  cbn [fst snd] in Hk, Hi, Hf.
  change (kalshi_filled (set_kalshi_leg result kr)) with (d_filled kr).
  destruct (d_filled kr) eqn:Ef; cbn [negb].
  - pose proof (leg_b_spec w mapping capital (set_kalshi_leg result kr)
                  opp quantity kc ic) as B.
    cbv zeta in B.
    destruct (leg_b w mapping capital (set_kalshi_leg result kr)
                opp quantity kc ic) as [[r c] calls].
    unfold result_of, ledger_of, calls_of in *. cbn [fst snd] in *.
    destruct B as (B1 & B2 & B3 & B4 & B5).
    change (kalshi_filled (set_kalshi_leg result kr)) with (d_filled kr) in B1.
    change (kalshi_fill_quantity (set_kalshi_leg result kr))
      with (default 0%Z (d_fill_quantity kr)) in B2, B5.
    change (ibkr_con_id (set_kalshi_leg result kr)) with (ibkr_con_id result) in B3.
    change (rolled_back (set_kalshi_leg result kr)) with (rolled_back result) in B4.
    change (success (set_kalshi_leg result kr)) with (success result) in B5.
    rewrite B1, Ef.
    split; [discriminate|]. intros _.
    destruct (Hf eq_refl) as (seen & Hin & Hfilled & Hq & Hp).
    rewrite B2, Hq. cbn [default].
    split; [now apply is_filled_positive|].
    split; [exists seen; auto|].
    rewrite ibkr_orders_app, kalshi_orders_app, Hi, Hk, B3.
    split; [reflexivity|].
    split; [exact B4|].
    intros Hb. destruct (B5 Hb) as (R1 & R2 & R3 & R4 & R5).
    rewrite R4, Hq. cbn [default].
    repeat split; auto.
  - unfold result_of, ledger_of, calls_of. cbn [fst snd].
    split; [|simpl; rewrite Ef; discriminate].
    intros _. rewrite Hk, Hi. repeat split.
Qed.


Lemma reserved_then_released a amount :
  Account.can_afford a amount = true ->
  Account.same_account
    (Account.release (fst (Account.reserve a amount)) amount) a.
Proof.
  intros H. unfold Account.reserve, Account.release, Account.same_account.
  rewrite H. simpl. repeat split; ring.
Qed.

Lemma same_account_refl a : Account.same_account a a.
Proof. unfold Account.same_account. repeat split; reflexivity. Qed.

(** The four ways [execute] proceeds up to the [try] block. *)
Lemma execute_unknown_symbol self w opp quantity :
  _symbols self !! Arbitrage.symbol opp = None ->
  execute self w opp quantity
  = (set_error (new_result opp quantity)
       [Lit ("Unknown symbol: " ++ Arbitrage.symbol opp)%string],
     _capital self, []).
Proof. intros H. unfold execute. now rewrite H. Qed.

Lemma execute_no_kalshi_capital self w opp quantity mapping :
  _symbols self !! Arbitrage.symbol opp = Some mapping ->
  Account.can_afford (Account.kalshi (_capital self))
    (Arbitrage.kalshi_price opp * inject_Z quantity) = false ->
  execute self w opp quantity
  = (set_error (prepared mapping opp quantity)
       [Lit "Insufficient Kalshi capital: need $";
        FDec (Arbitrage.kalshi_price opp * inject_Z quantity)],
     Account.with_kalshi (_capital self) (Account.kalshi (_capital self)), []).
Proof.
  intros H Hk. unfold execute, Account.reserve. rewrite H, Hk. reflexivity.
Qed.

Lemma execute_no_ibkr_capital self w opp quantity mapping :
  _symbols self !! Arbitrage.symbol opp = Some mapping ->
  Account.can_afford (Account.kalshi (_capital self))
    (Arbitrage.kalshi_price opp * inject_Z quantity) = true ->
  Account.can_afford (Account.ibkr (_capital self))
    (Arbitrage.ibkr_price opp * inject_Z quantity) = false ->
  let k := fst (Account.reserve (Account.kalshi (_capital self))
                  (Arbitrage.kalshi_price opp * inject_Z quantity)) in
  execute self w opp quantity
  = (set_error (prepared mapping opp quantity)
       [Lit "Insufficient IBKR capital: need $";
        FDec (Arbitrage.ibkr_price opp * inject_Z quantity)],
     Account.with_kalshi
       (Account.with_ibkr (Account.with_kalshi (_capital self) k)
          (Account.ibkr (_capital self)))
       (Account.release k (Arbitrage.kalshi_price opp * inject_Z quantity)),
     []).
Proof.
  intros H Hk Hi. unfold execute, Account.reserve. rewrite H, Hk. cbn.
  rewrite Hi. reflexivity.
Qed.

Lemma execute_reserved self w opp quantity mapping :
  _symbols self !! Arbitrage.symbol opp = Some mapping ->
  Account.can_afford (Account.kalshi (_capital self))
    (Arbitrage.kalshi_price opp * inject_Z quantity) = true ->
  Account.can_afford (Account.ibkr (_capital self))
    (Arbitrage.ibkr_price opp * inject_Z quantity) = true ->
  let kc := Arbitrage.kalshi_price opp * inject_Z quantity in
  let ic := Arbitrage.ibkr_price opp * inject_Z quantity in
  execute self w opp quantity
  = leg_a w mapping
      (Account.with_ibkr
         (Account.with_kalshi (_capital self)
            (fst (Account.reserve (Account.kalshi (_capital self)) kc)))
         (fst (Account.reserve (Account.ibkr (_capital self)) ic)))
      (prepared mapping opp quantity) opp quantity kc ic.
Proof.
  intros H Hk Hi. unfold execute, Account.reserve. rewrite H, Hk. cbn.
  rewrite Hi. reflexivity.
Qed.

Lemma execute_spec self w opp quantity :
  let x := execute self w opp quantity in
  let kc := Arbitrage.kalshi_price opp * inject_Z quantity in
  (kalshi_filled (result_of x) = false ->
   success (result_of x) = false /\
   rolled_back (result_of x) = false /\
   ibkr_orders (calls_of x) = [] /\
   Account.same_ledger (ledger_of x) (_capital self)) /\
  (kalshi_filled (result_of x) = true ->
   exists mapping,
     _symbols self !! Arbitrage.symbol opp = Some mapping /\
     (0 < kalshi_fill_quantity (result_of x))%Z /\
     (exists seen,
        In (inr seen) (kalshi_polls w) /\ Kalshi.is_filled seen = true /\
        kalshi_fill_quantity (result_of x) = Kalshi.fill_count seen) /\
     ibkr_orders (calls_of x)
       = [IbkrPlaceOrder (con_id_for mapping opp) quantity
            (Arbitrage.ibkr_price opp)] /\
     (ibkr_filled (result_of x) = true -> rolled_back (result_of x) = false) /\
     (ibkr_filled (result_of x) = false ->
      rolled_back (result_of x) = true /\
      success (result_of x) = false /\
      Account.kalshi (ledger_of x)
        = fst (Account.reserve (Account.kalshi (_capital self)) kc) /\
      Account.can_afford (Account.kalshi (_capital self)) kc = true /\
      Account.same_account (Account.ibkr (ledger_of x))
        (Account.ibkr (_capital self)) /\
      kalshi_orders (calls_of x)
        = [leg_a_order mapping opp quantity;
           hedge_order mapping opp (kalshi_fill_quantity (result_of x))] /\
      exists details,
        rollback_details (result_of x) = Some details /\
        (hedge_filled w = false -> mentions MANUAL details = true))).
Proof.
  intros x kc. subst x.
  set (ic := Arbitrage.ibkr_price opp * inject_Z quantity).
  destruct (_symbols self !! Arbitrage.symbol opp) as [mapping|] eqn:Hm.
  2:{ rewrite (execute_unknown_symbol self w opp quantity Hm).
      unfold result_of, ledger_of, calls_of, Account.same_ledger. simpl.
      split; [|intros Habs; discriminate Habs]. intros _.
      repeat split; auto using same_account_refl. }
  destruct (Account.can_afford (Account.kalshi (_capital self)) kc) eqn:Hk.
  2:{ rewrite (execute_no_kalshi_capital self w opp quantity mapping Hm Hk).
      unfold result_of, ledger_of, calls_of, Account.same_ledger. simpl.
      split; [|intros Habs; discriminate Habs]. intros _.
      repeat split; auto using same_account_refl. }
  destruct (Account.can_afford (Account.ibkr (_capital self)) ic) eqn:Hi.
  2:{ rewrite (execute_no_ibkr_capital self w opp quantity mapping Hm Hk Hi).
      unfold result_of, ledger_of, calls_of, Account.same_ledger. cbn [fst snd].
      split; [|intros Habs; discriminate Habs]. intros _.
      pose proof (reserved_then_released _ _ Hk) as Hr.
      repeat split; auto using same_account_refl; apply Hr. }
  rewrite (execute_reserved self w opp quantity mapping Hm Hk Hi).
  fold kc ic.
  set (k := fst (Account.reserve (Account.kalshi (_capital self)) kc)).
  set (i := fst (Account.reserve (Account.ibkr (_capital self)) ic)).
  set (capital := Account.with_ibkr (Account.with_kalshi (_capital self) k) i).
  pose proof (leg_a_spec w mapping capital (prepared mapping opp quantity)
                opp quantity kc ic) as A.
  cbv zeta in A. destruct A as [A1 A2].
  split.
  - intros H. destruct (A1 H) as (S1 & S2 & S3 & S4 & S5).
    rewrite S1, S2, S3, S5.
    repeat split; auto;
      try apply (reserved_then_released _ _ Hk);
      try apply (reserved_then_released _ _ Hi).
  - intros H. destruct (A2 H) as (P1 & P2 & P3 & P4 & P5).
    exists mapping.
    split; [reflexivity|]. split; [exact P1|]. split; [exact P2|].
    split; [exact P3|]. split; [exact P4|].
    intros Hb. destruct (P5 Hb) as (R1 & R2 & R3 & R4 & R5).
    rewrite R3.
    split; [exact R1|]. split; [exact R2|]. split; [reflexivity|].
    split; [reflexivity|].
    split; [apply (reserved_then_released _ _ Hi)|].
    split; [exact R4 | exact R5].
Qed.

End ExecutorFacts.
Section ExecutorClaims.

Import Fmt Executor.
Local Open Scope Q_scope.

(** The IBKR leg counts as filled only when the order could be placed and
    [wait_for_fill] came back with status [FILLED]: a submit exception, a
    cancelled or inactive order, a timeout and a failing cancel all leave
    it unfilled. *)
Lemma execute_ibkr_filled_iff w con_id quantity price :
  d_filled (fst (_execute_ibkr w con_id quantity price)) = true <->
  exists placed,
    ibkr_place w = inr placed /\
    IBKR.is_filled (IBKR.wait_for_fill (ibkr_polls w) (ibkr_at_timeout w)) = true.
Proof.
  unfold _execute_ibkr.
  destruct (ibkr_place w) as [e|placed]; simpl.
  - split; [discriminate | intros (p & Hp & _); discriminate].
  - destruct (IBKR.is_filled _) eqn:Ef; simpl.
    + split; [eauto | reflexivity].
    + destruct (IBKR.is_open _); [destruct (ibkr_cancel w)|]; simpl;
        (split; [discriminate | intros (p & _ & Hp); discriminate]).
Qed.

(** [_rollback_kalshi] takes its [order.is_filled] branch exactly when
    the hedge could be placed and read back, and the order read back has
    nothing remaining and a positive fill count. *)
Lemma hedge_filled_iff w :
  hedge_filled w = true <->
  exists placed order,
    hedge_place w = inr placed /\ hedge_get w = inr order /\
    Kalshi.remaining_count order = 0%Z /\ (0 < Kalshi.fill_count order)%Z.
Proof.
  unfold hedge_filled, Kalshi.is_filled.
  destruct (hedge_place w) as [e|placed].
  - split; [discriminate | intros (p & o & Hp & _); discriminate].
  - destruct (hedge_get w) as [e|order].
    + split; [discriminate | intros (p & o & _ & Ho & _); discriminate].
    + rewrite andb_true_iff, Z.eqb_eq, Z.ltb_lt. split.
      * intros [H1 H2]. exists placed, order. auto.
      * intros (p & o & _ & Ho & H1 & H2). injection Ho as <-. auto.
Qed.




(** S5 with a hedge that is still resting: the details say so. *)
Example unfilled_hedge_is_flagged :
  rollback_details
    (result_of (execute Scenario.s5_executor Scenario.s5_venues_unhedged
                  Scenario.s1_opportunity 5))
  = Some [Lit "Hedge order resting - MANUAL INTERVENTION REQUIRED"].
Proof. vm_compute. reflexivity. Qed.



(** Whatever the venues answer, once the Kalshi leg is reported filled
    the IBKR order is placed for the quantity that was requested, while
    the quantity recorded as filled is the fill count of the order the
    venue showed; and a leg that filled nothing is never reported
    filled: the execution then fails without an IBKR order and the
    ledger is back to its amounts. *)
Lemma leg_b_order_quantity
    (self : OrderExecutor) (w : Venues)
    (opp : Arbitrage.ArbitrageOpportunity) (quantity : Z) :
  let x := execute self w opp quantity in
  (kalshi_filled (result_of x) = true ->
   (0 < kalshi_fill_quantity (result_of x))%Z /\
   exists mapping,
     _symbols self !! Arbitrage.symbol opp = Some mapping /\
     ibkr_orders (calls_of x)
     = [IbkrPlaceOrder (con_id_for mapping opp) quantity
          (Arbitrage.ibkr_price opp)]) /\
  (kalshi_filled (result_of x) = false ->
   success (result_of x) = false /\
   ibkr_orders (calls_of x) = [] /\
   Account.same_ledger (ledger_of x) (_capital self)).
Proof.
  intros x.
  destruct (execute_spec self w opp quantity) as [Hnot Hfilled].
  fold x in Hnot, Hfilled. split.
  - intros Hk.
    destruct (Hfilled Hk) as (mapping & Hm & Hpos & _ & Ho & _).
    split; [exact Hpos | exists mapping; auto].
  - intros Hk. destruct (Hnot Hk) as (H1 & _ & H3 & H4). auto.
Qed.

(** C1 fails on the code.  Leg A is asked for 5 contracts and the venue
    shows the order with nothing remaining and 3 contracts filled:
    [execute] records a filled quantity of 3 and still places the IBKR
    order for 5 contracts, and ends with 3 contracts on Kalshi against
    5 on IBKR. *)
Theorem leg_b_sized_by_request_not_by_fill :
  let x := execute Scenario.s5_executor Scenario.partial_fill_venues
             Scenario.s1_opportunity 5 in
  kalshi_filled (result_of x) = true /\
  kalshi_fill_quantity (result_of x) = 3%Z /\
  ibkr_orders (calls_of x) = [IbkrPlaceOrder 1002 5 (43 # 100)] /\
  success (result_of x) = true /\
  Account.get_position_quantity (Account.kalshi (ledger_of x)) "EVT" "YES" = 3%Z /\
  Account.get_position_quantity (Account.ibkr (ledger_of x)) "EVT" "NO" = 5%Z.
Proof. vm_compute. repeat split. Qed.

End ExecutorClaims.
